(** * Proximity-scaled alarm (HC-SR04 + LEDs + buzzer): a shallow embedding

    The repository holds two sketches of the same control loop.  The first
    (module [Sketch1]) is split into functions and leaves its tunable
    constants open; the second (module [Sketch2]) is a single [loop] with
    the constants filled in.  Both are embedded below, function by function,
    over a model of the Arduino data types they use:

    - [int] is the 16-bit two's-complement integer of the AVR boards the
      sketches are wired for, carried as [Z] with its wrap-around written
      out ([wrap_int]);
    - [unsigned long] is a 32-bit counter, carried as [Z] modulo [2^32]
      ([wrap_ulong]);
    - [float] is IEEE-754 binary32 with round-to-nearest-even, carried as
      [spec_float] with precision 24 and maximal exponent 128;
    - the pins and the serial port are an explicit [Board] value threaded
      through the code; [millis()] and [pulseIn()] are inputs of a tick. *)

From stdpp Require Import base list numbers strings.
From Stdlib Require Import Floats.SpecFloat DecimalString.

Open Scope Z_scope.

(* ===================================================================== *)
(** * Machine integers *)
(* ===================================================================== *)

(** [int]: 16 bits, two's complement. *)
Definition INT_MIN : Z := -32768.
Definition INT_MAX : Z := 32767.
Definition wrap_int (z : Z) : Z := (z + 32768) mod 65536 - 32768.

(** [unsigned long]: 32 bits. *)
Definition ULONG_MOD : Z := 4294967296.
Definition wrap_ulong (z : Z) : Z := z mod ULONG_MOD.

(** [uint8_t]. *)
Definition wrap_u8 (z : Z) : Z := z mod 256.

(* ===================================================================== *)
(** * binary32 floating point *)
(* ===================================================================== *)

Definition f32 : Type := spec_float.

Definition prec32 : Z := 24.
Definition emax32 : Z := 128.

(** Conversion of an integer to [float] (correctly rounded). *)
Definition f32_of_Z (n : Z) : f32 := binary_normalize prec32 emax32 n 0 false.

Definition f32_add : f32 -> f32 -> f32 := SFadd prec32 emax32.
Definition f32_sub : f32 -> f32 -> f32 := SFsub prec32 emax32.
Definition f32_mul : f32 -> f32 -> f32 := SFmul prec32 emax32.
Definition f32_div : f32 -> f32 -> f32 := SFdiv prec32 emax32.
Definition f32_ltb : f32 -> f32 -> bool := SFltb.

(** Conversion of a [float] to an integer type: the fractional part is
    discarded (truncation toward zero).  The conversion of an infinity or of
    a NaN is undefined in C++; the model returns 0 there, and no theorem
    below evaluates it on one. *)
Definition f32_trunc (x : f32) : Z :=
  match x with
  | S754_finite s m e =>
      let mag := match e with
                 | Zneg k => Z.shiftr (Zpos m) (Zpos k)
                 | _ => Z.shiftl (Zpos m) e
                 end in
      if s then - mag else mag
  | _ => 0
  end.

(** Decimal literals denote the binary32 value nearest to them, which is
    what the correctly rounded quotient of their numerator and denominator
    computes. *)
Definition lit_0_0 : f32 := S754_zero false.
Definition lit_1_0 : f32 := Eval vm_compute in f32_of_Z 1.
Definition lit_0_5 : f32 := Eval vm_compute in f32_div (f32_of_Z 1) (f32_of_Z 2).
Definition lit_0_30 : f32 := Eval vm_compute in f32_div (f32_of_Z 3) (f32_of_Z 10).
Definition lit_0_343 : f32 := Eval vm_compute in f32_div (f32_of_Z 343) (f32_of_Z 1000).
Definition lit_6000_0 : f32 := Eval vm_compute in f32_of_Z 6000.

(* ===================================================================== *)
(** * The board: pins, buzzer and serial port *)
(* ===================================================================== *)

Inductive Pin : Type := PIN_LED_GREEN | PIN_LED_RED.

Definition LOW : bool := false.
Definition HIGH : bool := true.

(** The calls a sketch issues on its actuators, in the order issued. *)
Inductive Cmd : Type :=
| CDigitalWrite (pin : Pin) (level : bool)
| CTone (hz : Z)
| CNoTone.

Record Board : Type := mkBoard {
  ledGreen : bool;          (* "ready/clear" indicator *)
  ledRed   : bool;          (* "alarming" indicator *)
  buzzer   : option Z;      (* frequency of the tone being played, if any *)
  issued   : list Cmd;      (* every actuator call so far, oldest first *)
  serial   : list string    (* lines printed so far, oldest first *)
}.

Definition digitalWrite (pin : Pin) (level : bool) (b : Board) : Board :=
  match pin with
  | PIN_LED_GREEN =>
      mkBoard level (ledRed b) (buzzer b)
              (issued b ++ [CDigitalWrite pin level]) (serial b)
  | PIN_LED_RED =>
      mkBoard (ledGreen b) level (buzzer b)
              (issued b ++ [CDigitalWrite pin level]) (serial b)
  end.

Definition tone (hz : Z) (b : Board) : Board :=
  mkBoard (ledGreen b) (ledRed b) (Some hz) (issued b ++ [CTone hz]) (serial b).

Definition noTone (b : Board) : Board :=
  mkBoard (ledGreen b) (ledRed b) None (issued b ++ [CNoTone]) (serial b).

(** [Serial.print] of an [int]: its decimal digits, with a sign when
    negative. *)
Definition print_int (z : Z) : string := NilZero.string_of_int (Z.to_int z).

Definition println (line : string) (b : Board) : Board :=
  mkBoard (ledGreen b) (ledRed b) (buzzer b) (issued b) (serial b ++ [line]).

(** The board as [setup()] leaves it. *)
Definition board0 : Board := mkBoard LOW LOW None [] [].

(** Reading slot [i] of a small [int] array, and writing it.  The sketches
    only index their three-slot arrays with 0, 1 or 2 (the write index is
    reduced modulo 3 after every use); outside the array C++ leaves the
    access undefined, here a read yields a default and a write is dropped. *)
Definition aget (a : list Z) (i : Z) : Z := a !!! Z.to_nat i.
Definition aset (a : list Z) (i : Z) (v : Z) : list Z := <[Z.to_nat i := v]> a.

(* ===================================================================== *)
(** * First sketch: the loop split into functions, tunables left open *)
(* ===================================================================== *)

Module Sketch1.

(** The TUNABLES section.  The source leaves the six integer constants to
    whoever builds the sketch, so they are a parameter here; [ON_FRACTION]
    is given. *)
Record Tunables : Type := mkTunables {
  FAR_DISTANCE_MM  : Z;   (* start sparse beeps inside this distance *)
  NEAR_DISTANCE_MM : Z;   (* very close (fastest pattern) *)
  MAX_PERIOD_MS    : Z;   (* slow beeps when far *)
  MIN_PERIOD_MS    : Z;   (* fast beeps when near *)
  TONE_MIN_HZ      : Z;
  TONE_MAX_HZ      : Z
}.

Definition ON_FRACTION : f32 := lit_0_30.

(** [pulseIn] timeout, in microseconds: the widest echo it can report. *)
Definition TIMEOUT_US : Z := 38000.

(** Pattern phase state (non-blocking blinks/beeps). *)
Record PatternState : Type := mkPatternState {
  phaseStartMs : Z;      (* start time of current ON or OFF phase *)
  phaseOn      : bool    (* true=ON (LED/tone), false=OFF (quiet) *)
}.

Record PatternParams : Type := mkPatternParams {
  periodMs : Z;          (* full cycle length *)
  toneHz   : Z;          (* tone frequency for current proximity *)
  onMs     : Z;          (* ON duration in this cycle *)
  offMs    : Z           (* OFF duration in this cycle *)
}.

(** The file-scope variables. *)
Record Globals : Type := mkGlobals {
  distanceBuf : list Z;
  distanceIdx : Z;
  pattern     : PatternState
}.

Definition globals0 : Globals :=
  mkGlobals [-1; -1; -1] 0 (mkPatternState 0 false).

(** [readDistanceMmOnce]: [us] is the echo width [pulseIn] returned for this
    measurement (0 on timeout).  The trigger pulse on the TRIG pin does not
    touch the actuators and is left out. *)
Definition readDistanceMmOnce (us : Z) : Z :=
  if us =? 0 then -1
  else
    let mm := f32_mul (f32_mul (f32_of_Z us) lit_0_343) lit_0_5 in
    if f32_ltb mm lit_0_0 || f32_ltb lit_6000_0 mm then -1
    else wrap_int (f32_trunc (f32_add mm lit_0_5)).

(** Median of 3 that tolerates -1 (invalid).  [tmp] is not initialised in
    the source; its slots are only read after they were written. *)
Definition medianOf3_allowInvalid (a b c : Z) : Z :=
  let tmp := [0; 0; 0] in
  let n := 0 in
  let '(tmp, n) := if 0 <=? a then (aset tmp n a, n + 1) else (tmp, n) in
  let '(tmp, n) := if 0 <=? b then (aset tmp n b, n + 1) else (tmp, n) in
  let '(tmp, n) := if 0 <=? c then (aset tmp n c, n + 1) else (tmp, n) in
  if n =? 0 then -1
  else if n =? 1 then aget tmp 0
  else if n =? 2 then Z.quot (wrap_int (aget tmp 0 + aget tmp 1)) 2
  else
    let tmp := if aget tmp 1 <? aget tmp 0
               then let t := aget tmp 0 in aset (aset tmp 0 (aget tmp 1)) 1 t
               else tmp in
    let tmp := if aget tmp 2 <? aget tmp 1
               then let t := aget tmp 1 in aset (aset tmp 1 (aget tmp 2)) 2 t
               else tmp in
    let tmp := if aget tmp 1 <? aget tmp 0
               then let t := aget tmp 0 in aset (aset tmp 0 (aget tmp 1)) 1 t
               else tmp in
    aget tmp 1.

(** Update 3-sample buffer and return median. *)
Definition readAndSmoothDistanceMm (us : Z) (g : Globals) : Z * Globals :=
  let mm := readDistanceMmOnce us in
  let buf := aset (distanceBuf g) (distanceIdx g) mm in
  let idx := wrap_u8 (Z.rem (distanceIdx g + 1) 3) in
  (medianOf3_allowInvalid (aget buf 0) (aget buf 1) (aget buf 2),
   mkGlobals buf idx (pattern g)).

Section WithTunables.

Variable cfg : Tunables.

(** Convert proximity to pattern parameters (period and tone), using cubic
    easing. *)
Definition computePatternFromDistance (smoothedMm : Z) (inRange : bool)
  : PatternParams :=
  let periodMs := MAX_PERIOD_MS cfg in
  let toneHz := TONE_MIN_HZ cfg in
  let '(periodMs, toneHz) :=
    if inRange then
      let norm :=
        f32_div (f32_of_Z (wrap_int (FAR_DISTANCE_MM cfg - smoothedMm)))
                (f32_of_Z (wrap_int (FAR_DISTANCE_MM cfg - NEAR_DISTANCE_MM cfg))) in
      let norm := if f32_ltb norm lit_0_0 then lit_0_0 else norm in
      let norm := if f32_ltb lit_1_0 norm then lit_1_0 else norm in
      let ease := f32_mul (f32_mul norm norm) norm in
      (wrap_int (f32_trunc
         (f32_add
            (f32_sub (f32_of_Z (MAX_PERIOD_MS cfg))
               (f32_mul ease
                  (f32_of_Z (wrap_int (MAX_PERIOD_MS cfg - MIN_PERIOD_MS cfg)))))
            lit_0_5)),
       wrap_int (f32_trunc
         (f32_add
            (f32_add (f32_of_Z (TONE_MIN_HZ cfg))
               (f32_mul ease
                  (f32_of_Z (wrap_int (TONE_MAX_HZ cfg - TONE_MIN_HZ cfg)))))
            lit_0_5)))
    else (periodMs, toneHz) in
  let onMs := wrap_ulong (f32_trunc (f32_mul (f32_of_Z periodMs) ON_FRACTION)) in
  let offMs := wrap_ulong (wrap_ulong periodMs - onMs) in
  mkPatternParams periodMs toneHz onMs offMs.

End WithTunables.

(** Drive LEDs and buzzer (non-blocking state machine).  [now] is what
    [millis()] returns in this call. *)
Definition driveOutputs (inRange : bool) (p : PatternParams) (now : Z)
  (s : PatternState) (b : Board) : PatternState * Board :=
  if negb inRange then
    let s := mkPatternState (phaseStartMs s) false in
    let s := mkPatternState 0 (phaseOn s) in
    let b := digitalWrite PIN_LED_RED LOW b in
    let b := noTone b in
    let b := digitalWrite PIN_LED_GREEN HIGH b in
    (s, b)
  else
    let b := digitalWrite PIN_LED_GREEN LOW b in
    if phaseStartMs s =? 0 then
      let s := mkPatternState now (phaseOn s) in
      let s := mkPatternState (phaseStartMs s) true in
      let b := digitalWrite PIN_LED_RED HIGH b in
      let b := tone (toneHz p) b in
      (s, b)
    else if phaseOn s then
      if onMs p <=? wrap_ulong (now - phaseStartMs s) then
        let s := mkPatternState (phaseStartMs s) false in
        let s := mkPatternState now (phaseOn s) in
        let b := digitalWrite PIN_LED_RED LOW b in
        let b := noTone b in
        (s, b)
      else (s, b)
    else
      if offMs p <=? wrap_ulong (now - phaseStartMs s) then
        let s := mkPatternState (phaseStartMs s) true in
        let s := mkPatternState now (phaseOn s) in
        let b := digitalWrite PIN_LED_RED HIGH b in
        let b := tone (toneHz p) b in
        (s, b)
      else (s, b).

(** Serial logging for tuning. *)
Definition logStatus (smoothedMm : Z) (inRange : bool) (p : PatternParams)
  (b : Board) : Board :=
  println ("mm=" +:+ print_int smoothedMm
           +:+ "  inRange=" +:+ print_int (if inRange then 1 else 0)
           +:+ "  periodMs=" +:+ print_int (periodMs p)
           +:+ "  toneHz=" +:+ print_int (toneHz p)) b.

(** One pass of [loop()]: [us] is the echo width of this tick's measurement
    and [now] the clock reading of this tick. *)
Definition loop (cfg : Tunables) (us now : Z) (g : Globals) (b : Board)
  : Globals * Board :=
  let '(smoothedMm, g) := readAndSmoothDistanceMm us g in
  let valid := 0 <=? smoothedMm in
  let inRange := valid && (smoothedMm <=? FAR_DISTANCE_MM cfg) in
  let params := computePatternFromDistance cfg smoothedMm inRange in
  let '(s, b) := driveOutputs inRange params now (pattern g) b in
  let g := mkGlobals (distanceBuf g) (distanceIdx g) s in
  let b := logStatus smoothedMm inRange params b in
  (g, b).

End Sketch1.

(* ===================================================================== *)
(** * Second sketch: one [loop()], constants filled in *)
(* ===================================================================== *)

Module Sketch2.

Definition FAR_MM : Z := 1500.        (* start giving sparse beeps inside this distance *)
Definition NEAR_MM : Z := 150.        (* very close (fastest pattern) *)
Definition MAX_PERIOD_MS : Z := 1600.
Definition MIN_PERIOD_MS : Z := 110.
Definition ON_FRACTION : f32 := lit_0_30.
Definition TONE_MIN_HZ : Z := 400.
Definition TONE_MAX_HZ : Z := 1600.

Definition TIMEOUT_US : Z := 38000.   (* pulseIn timeout *)

(** The file-scope variables: smoothing buffer and pattern state. *)
Record Globals : Type := mkGlobals {
  last3        : list Z;
  idx          : Z;
  phaseStartMs : Z;
  phaseOn      : bool
}.

Definition globals0 : Globals := mkGlobals [-1; -1; -1] 0 0 false.

(** [readDistanceMm]: [us] is the echo width [pulseIn] returned. *)
Definition readDistanceMm (us : Z) : Z :=
  if us =? 0 then -1
  else
    let mm := f32_mul (f32_mul (f32_of_Z us) lit_0_343) lit_0_5 in
    if f32_ltb mm (f32_of_Z 0) || f32_ltb (f32_of_Z 6000) mm then -1
    else wrap_int (f32_trunc (f32_add mm lit_0_5)).

(** [median3]: the [for] loop over [v] is a fold over its three indices. *)
Definition median3 (a b c : Z) : Z :=
  let v := [a; b; c] in
  let validCount := 0 in
  let buf := [0; 0; 0] in
  let '(buf, validCount) :=
    fold_left
      (fun '(buf, validCount) i =>
         if 0 <=? aget v i then (aset buf validCount (aget v i), validCount + 1)
         else (buf, validCount))
      [0; 1; 2] (buf, validCount) in
  if validCount =? 0 then -1
  else if validCount =? 1 then aget buf 0
  else if validCount =? 2 then Z.quot (wrap_int (aget buf 0 + aget buf 1)) 2
  else
    let buf := if aget buf 1 <? aget buf 0
               then let t := aget buf 0 in aset (aset buf 0 (aget buf 1)) 1 t
               else buf in
    let buf := if aget buf 2 <? aget buf 1
               then let t := aget buf 1 in aset (aset buf 1 (aget buf 2)) 2 t
               else buf in
    let buf := if aget buf 1 <? aget buf 0
               then let t := aget buf 0 in aset (aset buf 0 (aget buf 1)) 1 t
               else buf in
    aget buf 1.

(** Part 3 of [loop()]: pattern parameters from proximity.  Returns
    [(periodMs, toneHz)]. *)
Definition loop_pattern (smoothed : Z) (inRange : bool) : Z * Z :=
  let periodMs := MAX_PERIOD_MS in
  let toneHz := TONE_MIN_HZ in
  if inRange then
    let p := f32_div (f32_of_Z (wrap_int (FAR_MM - smoothed)))
                     (f32_of_Z (wrap_int (FAR_MM - NEAR_MM))) in
    let p := if f32_ltb p (f32_of_Z 0) then f32_of_Z 0 else p in
    let p := if f32_ltb (f32_of_Z 1) p then f32_of_Z 1 else p in
    let e := f32_mul (f32_mul p p) p in
    (wrap_int (f32_trunc
       (f32_add
          (f32_sub (f32_of_Z MAX_PERIOD_MS)
             (f32_mul e (f32_of_Z (wrap_int (MAX_PERIOD_MS - MIN_PERIOD_MS)))))
          lit_0_5)),
     wrap_int (f32_trunc
       (f32_add
          (f32_add (f32_of_Z TONE_MIN_HZ)
             (f32_mul e (f32_of_Z (wrap_int (TONE_MAX_HZ - TONE_MIN_HZ)))))
          lit_0_5)))
  else (periodMs, toneHz).

(** The two locals of part 4, "how long is the ON part this cycle?":
    [onMs = (unsigned long)(periodMs * ON_FRACTION)] and
    [offMs = (unsigned long)(periodMs - onMs)]. *)
Definition loop_onMs (periodMs : Z) : Z :=
  wrap_ulong (f32_trunc (f32_mul (f32_of_Z periodMs) ON_FRACTION)).

Definition loop_offMs (periodMs onMs : Z) : Z :=
  wrap_ulong (wrap_ulong periodMs - onMs).

(** Part 4 of [loop()]: drive outputs (non-blocking).  [now] is what
    [millis()] returns in this pass. *)
Definition loop_outputs (inRange : bool) (periodMs toneHz : Z) (now : Z)
  (g : Globals) (b : Board) : Globals * Board :=
  if negb inRange then
    let g := mkGlobals (last3 g) (idx g) 0 false in
    let b := digitalWrite PIN_LED_RED LOW b in
    let b := noTone b in
    let b := digitalWrite PIN_LED_GREEN HIGH b in
    (g, b)
  else
    let b := digitalWrite PIN_LED_GREEN LOW b in
    let '(g, b) :=
      if phaseStartMs g =? 0 then
        let g := mkGlobals (last3 g) (idx g) now true in
        let b := digitalWrite PIN_LED_RED HIGH b in
        let b := tone toneHz b in
        (g, b)
      else (g, b) in
    let onMs := loop_onMs periodMs in
    let offMs := loop_offMs periodMs onMs in
    if phaseOn g then
      if onMs <=? wrap_ulong (now - phaseStartMs g) then
        let g := mkGlobals (last3 g) (idx g) now false in
        let b := digitalWrite PIN_LED_RED LOW b in
        let b := noTone b in
        (g, b)
      else (g, b)
    else
      if offMs <=? wrap_ulong (now - phaseStartMs g) then
        let g := mkGlobals (last3 g) (idx g) now true in
        let b := digitalWrite PIN_LED_RED HIGH b in
        let b := tone toneHz b in
        (g, b)
      else (g, b).

(** One pass of [loop()]. *)
Definition loop (us now : Z) (g : Globals) (b : Board) : Globals * Board :=
  (* 1) read and smooth distance *)
  let mm := readDistanceMm us in
  let g := mkGlobals (aset (last3 g) (idx g) mm)
                     (wrap_int (Z.rem (wrap_int (idx g + 1)) 3))
                     (phaseStartMs g) (phaseOn g) in
  let smoothed := median3 (aget (last3 g) 0) (aget (last3 g) 1) (aget (last3 g) 2) in
  (* 2) decide if we are in alarm range *)
  let valid := 0 <=? smoothed in
  let inRange := valid && (smoothed <=? FAR_MM) in
  (* 3) pattern parameters *)
  let '(periodMs, toneHz) := loop_pattern smoothed inRange in
  (* 4) drive outputs *)
  let '(g, b) := loop_outputs inRange periodMs toneHz now g b in
  (* 5) serial for tuning *)
  let b := println ("mm=" +:+ print_int smoothed
                    +:+ "  inRange=" +:+ print_int (if inRange then 1 else 0)
                    +:+ "  periodMs=" +:+ print_int periodMs
                    +:+ "  toneHz=" +:+ print_int toneHz) b in
  (g, b).

(** The tunables of this sketch, as a configuration of the first one. *)
Definition tunables : Sketch1.Tunables :=
  Sketch1.mkTunables FAR_MM NEAR_MM MAX_PERIOD_MS MIN_PERIOD_MS
                     TONE_MIN_HZ TONE_MAX_HZ.

End Sketch2.

(** Runs: a sketch is fed one [(us, now)] pair per pass of [loop()]. *)
Definition run1 (cfg : Sketch1.Tunables) (inputs : list (Z * Z))
  (g : Sketch1.Globals) (b : Board) : Sketch1.Globals * Board :=
  fold_left (fun '(g, b) '(us, now) => Sketch1.loop cfg us now g b) inputs (g, b).

Definition run2 (inputs : list (Z * Z)) (g : Sketch2.Globals) (b : Board)
  : Sketch2.Globals * Board :=
  fold_left (fun '(g, b) '(us, now) => Sketch2.loop us now g b) inputs (g, b).

(* ===================================================================== *)
(** * Notions the statements below use *)
(* ===================================================================== *)

(** A buffer entry is valid when it is not negative. *)
Definition valid_entries (a b c : Z) : list Z :=
  List.filter (fun x => 0 <=? x) [a; b; c].

(** [m] is the statistical median of [a], [b], [c]: the middle element
    once the three are put in order. *)
Definition is_median (m a b c : Z) : Prop :=
  exists lo hi, Permutation [a; b; c] [lo; m; hi] /\ lo <= m <= hi.

(** A distance sample: the invalid marker, or millimetres in [0, 6000]. *)
Definition is_sample (x : Z) : Prop := x = -1 \/ 0 <= x <= 6000.

(** The smoothing buffer holds three samples and a write index in range. *)
Definition buffer_ok (buf : list Z) (idx : Z) : Prop :=
  (exists a b c, buf = [a; b; c] /\ is_sample a /\ is_sample b /\ is_sample c)
  /\ 0 <= idx < 3.

(** Every echo width of a run is one [pulseIn] can report. *)
Definition echoes_ok (inputs : list (Z * Z)) : Prop :=
  Forall (fun i => 0 <= fst i <= Sketch1.TIMEOUT_US) inputs.

(** The sum of two valid entries fits an [int]. *)
Definition no_overflow (x : Z) : Prop := INT_MIN <= x <= INT_MAX / 2.

(** The integer nearest to [num / den] (halves go up), for [0 < den]. *)
Definition round_div (num den : Z) : Z := (2 * num + den) / (2 * den).

(** On-duration as the data model words it: the period times the fixed
    on-fraction 0.30, rounded to the nearest integer. *)
Definition rounded_on_duration (period : Z) : Z := round_div (period * 30) 100.

(** The same product with its fractional part discarded. *)
Definition truncated_on_duration (period : Z) : Z := (period * 30) / 100.

(** The file-scope variables of the two sketches hold the same values. *)
Definition same_globals (g1 : Sketch1.Globals) (g2 : Sketch2.Globals) : Prop :=
  Sketch1.distanceBuf g1 = Sketch2.last3 g2 /\
  Sketch1.distanceIdx g1 = Sketch2.idx g2 /\
  Sketch1.phaseStartMs (Sketch1.pattern g1) = Sketch2.phaseStartMs g2 /\
  Sketch1.phaseOn (Sketch1.pattern g1) = Sketch2.phaseOn g2.

(** Exhaustive checks over an interval of integers, by halving: the block
    [lo, lo + 2^k). *)
Fixpoint all_in_block (f : Z -> bool) (k : nat) (lo : Z) : bool :=
  match k with
  | O => f lo
  | S k' => all_in_block f k' lo && all_in_block f k' (lo + 2 ^ Z.of_nat k')
  end.

Definition forall_range (f : Z -> bool) (lo hi : Z) : bool :=
  all_in_block (fun x => (hi <? x) || f x)
               (Z.to_nat (Z.log2_up (hi - lo + 1))) lo.

(** What the exhaustive checks look at.  For a period: the ON/OFF split.
    For a distance: the cadence of the second sketch's tunables there and
    one millimetre further. *)
Definition split_row_ok (period : Z) : bool :=
  let on := Sketch2.loop_onMs period in
  let off := Sketch2.loop_offMs period on in
  (on =? period * 3 / 10) && (on + off =? period).

Definition sample_row_ok (us : Z) : bool :=
  let r := Sketch1.readDistanceMmOnce us in
  (r =? -1) || ((0 <=? r) && (r <=? 6000)).

Definition cadence_row_ok (d : Z) : bool :=
  let p := Sketch1.computePatternFromDistance Sketch2.tunables d true in
  let q := Sketch1.computePatternFromDistance Sketch2.tunables (d + 1) true in
  (Sketch2.MIN_PERIOD_MS <=? Sketch1.periodMs p)
  && (Sketch1.periodMs p <=? Sketch2.MAX_PERIOD_MS)
  && (Sketch2.TONE_MIN_HZ <=? Sketch1.toneHz p)
  && (Sketch1.toneHz p <=? Sketch2.TONE_MAX_HZ)
  && ((Sketch2.NEAR_MM <? d)
      || ((Sketch1.periodMs p =? Sketch2.MIN_PERIOD_MS)
          && (Sketch1.toneHz p =? Sketch2.TONE_MAX_HZ)))
  && ((Sketch2.FAR_MM <=? d)
      || ((Sketch1.periodMs p <=? Sketch1.periodMs q)
          && (Sketch1.toneHz q <=? Sketch1.toneHz p))).

(* ===================================================================== *)
(** * Notions used by the further properties *)
(* ===================================================================== *)

(** The widest echo that still converts to a distance within 6000 mm. *)
Definition MAX_VALID_US : Z := 34985.

(** The distance of an echo width, to the nearest millimetre:
    [us * 0.343 / 2], halves up. *)
Definition nearest_mm (us : Z) : Z := round_div (us * 343) 2000.

(** The echo width whose distance is nearest to [mm] millimetres. *)
Definition nearest_us (mm : Z) : Z := round_div (mm * 2000) 343.

Definition echo_row_ok (us : Z) : bool :=
  Sketch1.readDistanceMmOnce us
  =? (if (1 <=? us) && (us <=? MAX_VALID_US) then nearest_mm us else -1).

Definition echo_back_row_ok (mm : Z) : bool :=
  (1 <=? nearest_us mm) && (nearest_us mm <=? MAX_VALID_US)
  && (nearest_mm (nearest_us mm) =? mm).

(** The two floats are the same value, bit for bit. *)
Definition f32_same (x y : f32) : bool :=
  match x, y with
  | S754_zero s, S754_zero t => Bool.eqb s t
  | S754_infinity s, S754_infinity t => Bool.eqb s t
  | S754_nan, S754_nan => true
  | S754_finite s m e, S754_finite t n f =>
      Bool.eqb s t && (m =? n)%positive && (e =? f)
  | _, _ => false
  end.

(** [computePatternFromDistance] in two steps: the clamped [norm] of a
    distance, and the period and tone of a [norm]. *)
Definition norm_clamped (cfg : Sketch1.Tunables) (smoothedMm : Z) : f32 :=
  let norm :=
    f32_div (f32_of_Z (wrap_int (Sketch1.FAR_DISTANCE_MM cfg - smoothedMm)))
            (f32_of_Z (wrap_int (Sketch1.FAR_DISTANCE_MM cfg
                                 - Sketch1.NEAR_DISTANCE_MM cfg))) in
  let norm := if f32_ltb norm lit_0_0 then lit_0_0 else norm in
  if f32_ltb lit_1_0 norm then lit_1_0 else norm.

Definition cadence_of_norm (cfg : Sketch1.Tunables) (norm : f32) : Z * Z :=
  let ease := f32_mul (f32_mul norm norm) norm in
  (wrap_int (f32_trunc
     (f32_add
        (f32_sub (f32_of_Z (Sketch1.MAX_PERIOD_MS cfg))
           (f32_mul ease
              (f32_of_Z (wrap_int (Sketch1.MAX_PERIOD_MS cfg
                                   - Sketch1.MIN_PERIOD_MS cfg)))))
        lit_0_5)),
   wrap_int (f32_trunc
     (f32_add
        (f32_add (f32_of_Z (Sketch1.TONE_MIN_HZ cfg))
           (f32_mul ease
              (f32_of_Z (wrap_int (Sketch1.TONE_MAX_HZ cfg
                                   - Sketch1.TONE_MIN_HZ cfg)))))
        lit_0_5))).

(** The largest distance a sample, and so a smoothed distance, can be. *)
Definition MAX_SAMPLE_MM : Z := 6000.

Definition saturation_row_ok (d : Z) : bool :=
  f32_same (norm_clamped Sketch2.tunables d)
           (if d <=? Sketch2.NEAR_MM then lit_1_0 else lit_0_0).

(** [setup()] of either sketch: known safe outputs on boot.  Pin modes, the
    serial port and the TRIG pin are outside the board model. *)
Definition setup (b : Board) : Board :=
  let b := digitalWrite PIN_LED_GREEN LOW b in
  let b := digitalWrite PIN_LED_RED LOW b in
  noTone b.

(** The alarm LED and the buzzer follow the phase flag. *)
Definition in_step (on : bool) (b : Board) : Prop :=
  ledRed b = on /\ (buzzer b = None <-> on = false).

(** Successive in-range calls of [driveOutputs] under one cadence, at the
    clock readings [nows]. *)
Definition drive_ticks (p : Sketch1.PatternParams) (nows : list Z)
  (s : Sketch1.PatternState) (b : Board) : Sketch1.PatternState * Board :=
  fold_left (fun sb now => Sketch1.driveOutputs true p now (fst sb) (snd sb))
            nows (s, b).

(** The buzzer is silent or sounds within the tone range of the second
    sketch. *)
Definition tone_in_range (b : Board) : Prop :=
  forall hz, buzzer b = Some hz ->
             Sketch2.TONE_MIN_HZ <= hz <= Sketch2.TONE_MAX_HZ.

(** The in-range decision of [loop()] on a smoothed distance. *)
Definition in_zone (far d : Z) : bool := (0 <=? d) && (d <=? far).

(** Proof steps for the slot arrays of the smoothers: name the slot
    counters, then run the array reads and writes. *)
Ltac count_slots :=
  change (0 + 1 + 1 + 1) with 3; change (0 + 1 + 1) with 2;
  change (0 + 1) with 1.

Ltac run_slots := cbv -[Z.ltb Z.leb Z.add Z.quot wrap_int].

(** Case analysis on every integer comparison of the goal. *)
Ltac split_comparisons :=
  repeat match goal with
         | |- context [Z.leb ?x ?y] => destruct (Z.leb x y)
         | |- context [Z.eqb ?x ?y] => destruct (Z.eqb x y)
         end.

(* ===================================================================== *)
(** * Auxiliary facts *)
(* ===================================================================== *)

Lemma all_in_block_spec (f : Z -> bool) (k : nat) :
  forall lo, all_in_block f k lo = true ->
  forall x, lo <= x < lo + 2 ^ Z.of_nat k -> f x = true.
Proof.
  induction k as [|k IH]; intros lo H x Hx.
  - simpl in *. replace x with lo by lia. exact H.
  - cbn [all_in_block] in H. apply andb_prop in H as [H1 H2].
    rewrite Nat2Z.inj_succ, Z.pow_succ_r in Hx by lia.
    destruct (Z_lt_ge_dec x (lo + 2 ^ Z.of_nat k)) as [Hlt|Hge].
    + apply (IH lo H1). lia.
    + apply (IH _ H2). lia.
Qed.

Lemma forall_range_spec (f : Z -> bool) (lo hi : Z) :
  forall_range f lo hi = true ->
  forall x, lo <= x <= hi -> f x = true.
Proof.
  unfold forall_range. intros H x Hx.
  pose proof (all_in_block_spec _ _ _ H x) as Hb.
  assert (Hlog : hi - lo + 1 <= 2 ^ Z.log2_up (hi - lo + 1)).
  { destruct (Z.eq_dec (hi - lo + 1) 1) as [E|E].
    - rewrite E. reflexivity.
    - apply Z.log2_up_spec. lia. }
  rewrite Z2Nat.id in Hb by apply Z.log2_up_nonneg.
  assert (Hor : (hi <? x) || f x = true) by (apply Hb; lia).
  apply orb_prop in Hor as [Hc|Hc]; [apply Z.ltb_lt in Hc; lia | exact Hc].
Qed.

Lemma wrap_int_small (z : Z) : INT_MIN <= z <= INT_MAX -> wrap_int z = z.
Proof.
  unfold wrap_int, INT_MIN, INT_MAX. intros H.
  rewrite Z.mod_small by lia. lia.
Qed.

Lemma wrap_ulong_small (z : Z) : 0 <= z < ULONG_MOD -> wrap_ulong z = z.
Proof. unfold wrap_ulong. intros H. apply Z.mod_small. exact H. Qed.

Lemma wrap_ulong_self (now : Z) : wrap_ulong (now - now) = 0.
Proof. rewrite Z.sub_diag. reflexivity. Qed.

(* ===================================================================== *)
(** * Smoother *)
(* ===================================================================== *)

(** The function, path by path. *)
Lemma medianOf3_cases (a b c : Z) :
  Sketch1.medianOf3_allowInvalid a b c =
  match 0 <=? a, 0 <=? b, 0 <=? c with
  | false, false, false => -1
  | true, false, false => a
  | false, true, false => b
  | false, false, true => c
  | true, true, false => Z.quot (wrap_int (a + b)) 2
  | true, false, true => Z.quot (wrap_int (a + c)) 2
  | false, true, true => Z.quot (wrap_int (b + c)) 2
  | true, true, true =>
      if b <? a then (if c <? a then (if c <? b then b else c) else a)
      else (if c <? b then (if c <? a then a else c) else b)
  end.
Proof.
  unfold Sketch1.medianOf3_allowInvalid.
  destruct (0 <=? a), (0 <=? b), (0 <=? c); count_slots; run_slots;
    try reflexivity.
  repeat (match goal with
          | |- context [Z.ltb ?x ?y] => destruct (Z.ltb_spec x y)
          end; run_slots);
    lia.
Qed.

Lemma median3_eq (a b c : Z) :
  Sketch2.median3 a b c = Sketch1.medianOf3_allowInvalid a b c.
Proof.
  cbv beta iota zeta
      delta [Sketch2.median3 Sketch1.medianOf3_allowInvalid fold_left].
  change (aget [a; b; c] 0) with a.
  destruct (0 <=? a); cbv beta iota;
    change (aget [a; b; c] 1) with b;
    destruct (0 <=? b); cbv beta iota;
    change (aget [a; b; c] 2) with c;
    destruct (0 <=? c); cbv beta iota; reflexivity.
Qed.

(** C1. Smoothing rule of the 3-slot buffer, for both sketches
    ([medianOf3_allowInvalid] and [median3] agree): with no valid entry
    (an entry is valid when [>= 0]) the result is the invalid marker [-1];
    with exactly one, that entry unchanged; with exactly two, their mean by
    truncating integer division; with three, the statistical median (the
    middle element after sorting), not the mean.  Entries are [int]s small
    enough for the sum of two of them to fit an [int], as every distance
    sample is. *)
Theorem smoothing_rule (a b c : Z) :
  no_overflow a -> no_overflow b -> no_overflow c ->
  Sketch2.median3 a b c = Sketch1.medianOf3_allowInvalid a b c /\
  match valid_entries a b c with
  | [] => Sketch1.medianOf3_allowInvalid a b c = -1
  | [x] => Sketch1.medianOf3_allowInvalid a b c = x
  | [x; y] => Sketch1.medianOf3_allowInvalid a b c = Z.quot (x + y) 2
  | _ => is_median (Sketch1.medianOf3_allowInvalid a b c) a b c
  end.
Proof.
  unfold no_overflow, INT_MIN, INT_MAX. intros Ha Hb Hc.
  change (32767 / 2) with 16383 in *.
  split; [apply median3_eq|].
  rewrite medianOf3_cases.
  unfold valid_entries. cbn [List.filter].
  destruct (Z.leb_spec 0 a), (Z.leb_spec 0 b), (Z.leb_spec 0 c);
    try reflexivity;
    try (rewrite wrap_int_small by (unfold INT_MIN, INT_MAX; lia); reflexivity).
  (* three valid entries: one case per outcome of the compare-and-swaps *)
  unfold is_median.
  destruct (Z.ltb_spec b a), (Z.ltb_spec c a), (Z.ltb_spec c b); try lia.
  - exists c, a. split; [|lia].
    apply perm_trans with [b; a; c]; [apply perm_swap|].
    apply perm_trans with [b; c; a]; [apply perm_skip, perm_swap|].
    apply perm_swap.
  - exists b, a. split; [|lia].
    apply perm_trans with [b; a; c]; [apply perm_swap|].
    apply perm_skip, perm_swap.
  - exists b, c. split; [|lia]. apply perm_swap.
  - exists c, b. split; [|lia].
    apply perm_trans with [a; c; b]; [apply perm_skip, perm_swap|].
    apply perm_swap.
  - exists a, b. split; [|lia]. apply perm_skip, perm_swap.
  - exists a, c. split; [reflexivity|lia].
Qed.

Lemma smoothing_rule_witness :
  Sketch2.median3 800 (-1) 820 = Sketch1.medianOf3_allowInvalid 800 (-1) 820 /\
  Sketch1.medianOf3_allowInvalid 800 (-1) 820 = Z.quot (800 + 820) 2.
Proof.
  apply (smoothing_rule 800 (-1) 820); unfold no_overflow; vm_compute;
    split; discriminate.
Defined.

(** Every sample the sensor code returns is the invalid marker or a
    distance in [0, 6000] mm. *)
Lemma sample_table : forall_range sample_row_ok 0 Sketch1.TIMEOUT_US = true.
Proof. vm_compute. reflexivity. Qed.

Lemma readDistanceMmOnce_sample (us : Z) :
  0 <= us <= Sketch1.TIMEOUT_US -> is_sample (Sketch1.readDistanceMmOnce us).
Proof.
  intros H. pose proof (forall_range_spec _ _ _ sample_table us H) as Hr.
  unfold sample_row_ok in Hr. unfold is_sample.
  apply orb_prop in Hr as [Hr|Hr].
  - left. apply Z.eqb_eq, Hr.
  - right. apply andb_prop in Hr as [H1 H2].
    apply Z.leb_le in H1. apply Z.leb_le in H2. lia.
Qed.

Lemma is_sample_no_overflow (x : Z) : is_sample x -> no_overflow x.
Proof.
  unfold is_sample, no_overflow, INT_MIN, INT_MAX.
  change (32767 / 2) with 16383. lia.
Qed.

(** One pass of the smoother keeps three samples in the buffer, and returns
    the smoothing function of them. *)
Lemma readAndSmooth_buffer (us : Z) (g : Sketch1.Globals) :
  0 <= us <= Sketch1.TIMEOUT_US ->
  buffer_ok (Sketch1.distanceBuf g) (Sketch1.distanceIdx g) ->
  let r := Sketch1.readAndSmoothDistanceMm us g in
  buffer_ok (Sketch1.distanceBuf (snd r)) (Sketch1.distanceIdx (snd r)) /\
  exists a b c,
    Sketch1.distanceBuf (snd r) = [a; b; c] /\
    fst r = Sketch1.medianOf3_allowInvalid a b c /\
    no_overflow a /\ no_overflow b /\ no_overflow c.
Proof.
  intros Hus [(a & b & c & Hbuf & Ha & Hb & Hc) Hi] r. subst r.
  unfold Sketch1.readAndSmoothDistanceMm.
  cbn [fst snd Sketch1.distanceBuf Sketch1.distanceIdx].
  pose proof (readDistanceMmOnce_sample us Hus) as Hm.
  set (mm := Sketch1.readDistanceMmOnce us) in *.
  rewrite Hbuf.
  assert (Hcase : Sketch1.distanceIdx g = 0 \/ Sketch1.distanceIdx g = 1
                  \/ Sketch1.distanceIdx g = 2) by lia.
  destruct Hcase as [-> | [-> | ->]].
  - split; [split; [exists mm, b, c; auto | vm_compute; repeat split; discriminate]|].
    exists mm, b, c. split; [reflexivity|]. split; [reflexivity|].
    auto using is_sample_no_overflow.
  - split; [split; [exists a, mm, c; auto | vm_compute; repeat split; discriminate]|].
    exists a, mm, c. split; [reflexivity|]. split; [reflexivity|].
    auto using is_sample_no_overflow.
  - split; [split; [exists a, b, mm; auto | vm_compute; repeat split; discriminate]|].
    exists a, b, mm. split; [reflexivity|]. split; [reflexivity|].
    auto using is_sample_no_overflow.
Qed.

Lemma loop_buffer (cfg : Sketch1.Tunables) (us now : Z) (g : Sketch1.Globals)
  (b : Board) :
  Sketch1.distanceBuf (fst (Sketch1.loop cfg us now g b))
  = Sketch1.distanceBuf (snd (Sketch1.readAndSmoothDistanceMm us g)) /\
  Sketch1.distanceIdx (fst (Sketch1.loop cfg us now g b))
  = Sketch1.distanceIdx (snd (Sketch1.readAndSmoothDistanceMm us g)).
Proof.
  unfold Sketch1.loop.
  destruct (Sketch1.readAndSmoothDistanceMm us g) as [d g'].
  cbv beta iota zeta.
  destruct (Sketch1.driveOutputs _ _ _ _ _) as [s b'].
  split; reflexivity.
Qed.

(** In every run from power-up the buffer holds three samples, so the
    smoothing function is only ever called on entries whose pairwise sums
    fit an [int]. *)
Lemma run_buffer (cfg : Sketch1.Tunables) (inputs : list (Z * Z)) :
  forall g b,
  echoes_ok inputs ->
  buffer_ok (Sketch1.distanceBuf g) (Sketch1.distanceIdx g) ->
  buffer_ok (Sketch1.distanceBuf (fst (run1 cfg inputs g b)))
            (Sketch1.distanceIdx (fst (run1 cfg inputs g b))).
Proof.
  unfold echoes_ok.
  induction inputs as [|[us now] inputs IH]; intros g b Hin Hg.
  - exact Hg.
  - apply Forall_cons in Hin as [Hus Hin]. cbn [fst] in Hus.
    unfold run1. cbn [fold_left].
    destruct (loop_buffer cfg us now g b) as [Hb Hi].
    destruct (readAndSmooth_buffer us g Hus Hg) as [Hok _].
    rewrite <- Hb, <- Hi in Hok.
    destruct (Sketch1.loop cfg us now g b) as [g' b'].
    apply (IH g' b' Hin Hok).
Qed.

Lemma power_up_buffer :
  buffer_ok (Sketch1.distanceBuf Sketch1.globals0)
            (Sketch1.distanceIdx Sketch1.globals0).
Proof.
  split; [|cbn; lia].
  exists (-1), (-1), (-1). unfold is_sample. auto.
Qed.

(** A single dropout amid valid readings: the echoes of 800 mm and 820 mm
    around a timeout smooth to their mean, 810 mm. *)
Example dropout_is_bridged :
  fst (Sketch1.readAndSmoothDistanceMm 4781
         (fst (run1 Sketch2.tunables [(4665, 100); (0, 140)]
                    Sketch1.globals0 board0)))
  = 810.
Proof. vm_compute. reflexivity. Qed.

(** The median of three valid entries is in general not their mean. *)
Example median_is_not_mean :
  Sketch1.medianOf3_allowInvalid 100 100 400 = 100 /\
  Z.quot (100 + 100 + 400) 3 = 200.
Proof. split; reflexivity. Qed.

(* ===================================================================== *)
(** * Cadence: tables checked value by value *)
(* ===================================================================== *)

Lemma split_table : forall_range split_row_ok 0 INT_MAX = true.
Proof. vm_compute. reflexivity. Qed.

Lemma cadence_table : forall_range cadence_row_ok 0 Sketch2.FAR_MM = true.
Proof. vm_compute. reflexivity. Qed.

Lemma split_row (period : Z) :
  0 <= period <= INT_MAX ->
  Sketch2.loop_onMs period = period * 3 / 10 /\
  Sketch2.loop_onMs period
    + Sketch2.loop_offMs period (Sketch2.loop_onMs period) = period.
Proof.
  intros H. pose proof (forall_range_spec _ _ _ split_table period H) as Hr.
  unfold split_row_ok in Hr.
  apply andb_prop in Hr as [H1 H2].
  split; [apply Z.eqb_eq, H1 | apply Z.eqb_eq, H2].
Qed.

(** The ON/OFF split of the first sketch is the one of the second. *)
Lemma compute_split (cfg : Sketch1.Tunables) (d : Z) (r : bool) :
  let p := Sketch1.computePatternFromDistance cfg d r in
  Sketch1.onMs p = Sketch2.loop_onMs (Sketch1.periodMs p) /\
  Sketch1.offMs p = Sketch2.loop_offMs (Sketch1.periodMs p) (Sketch1.onMs p).
Proof.
  unfold Sketch1.computePatternFromDistance.
  destruct r; cbv beta iota zeta; split; reflexivity.
Qed.

(** Part 3 of the second sketch computes the period and tone of
    [computePatternFromDistance] at its tunables. *)
Lemma loop_pattern_eq (d : Z) (r : bool) :
  Sketch2.loop_pattern d r
  = (Sketch1.periodMs (Sketch1.computePatternFromDistance Sketch2.tunables d r),
     Sketch1.toneHz (Sketch1.computePatternFromDistance Sketch2.tunables d r)).
Proof.
  unfold Sketch2.loop_pattern, Sketch1.computePatternFromDistance.
  destruct r; cbv beta iota zeta; reflexivity.
Qed.

Lemma cadence_row (d : Z) :
  0 <= d <= Sketch2.FAR_MM ->
  let p := Sketch1.computePatternFromDistance Sketch2.tunables d true in
  let q := Sketch1.computePatternFromDistance Sketch2.tunables (d + 1) true in
  (Sketch2.MIN_PERIOD_MS <= Sketch1.periodMs p <= Sketch2.MAX_PERIOD_MS) /\
  (Sketch2.TONE_MIN_HZ <= Sketch1.toneHz p <= Sketch2.TONE_MAX_HZ) /\
  (d <= Sketch2.NEAR_MM ->
   Sketch1.periodMs p = Sketch2.MIN_PERIOD_MS /\
   Sketch1.toneHz p = Sketch2.TONE_MAX_HZ) /\
  (d < Sketch2.FAR_MM ->
   Sketch1.periodMs p <= Sketch1.periodMs q /\
   Sketch1.toneHz q <= Sketch1.toneHz p).
Proof.
  intros H p q.
  pose proof (forall_range_spec _ _ _ cadence_table d H) as Hr.
  unfold cadence_row_ok in Hr. fold p q in Hr.
  repeat (apply andb_prop in Hr as [Hr ?]).
  repeat match goal with
         | X : (_ <=? _) = true |- _ => apply Z.leb_le in X
         end.
  split; [lia|]. split; [lia|]. split.
  - intros Hn.
    match goal with
    | X : (Sketch2.NEAR_MM <? d) || _ = true |- _ =>
        apply orb_prop in X as [X|X];
        [apply Z.ltb_lt in X; lia
        |apply andb_prop in X as [X1 X2];
         apply Z.eqb_eq in X1; apply Z.eqb_eq in X2; split; assumption]
    end.
  - intros Hf.
    match goal with
    | X : (Sketch2.FAR_MM <=? d) || _ = true |- _ =>
        apply orb_prop in X as [X|X];
        [apply Z.leb_le in X; lia
        |apply andb_prop in X as [X1 X2];
         apply Z.leb_le in X1; apply Z.leb_le in X2; split; assumption]
    end.
Qed.

(** Every cadence the loop can compute in range has an ON part of at least
    one millisecond (33 ms at the shortest period). *)
Lemma onMs_positive (d : Z) :
  0 <= d <= Sketch2.FAR_MM ->
  1 <= Sketch2.loop_onMs
         (Sketch1.periodMs
            (Sketch1.computePatternFromDistance Sketch2.tunables d true)).
Proof.
  intros H. destruct (cadence_row d H) as ((Hlo & Hhi) & _).
  unfold Sketch2.MIN_PERIOD_MS, Sketch2.MAX_PERIOD_MS in *.
  set (per := Sketch1.periodMs _) in *.
  destruct (split_row per) as [-> _]; [unfold INT_MAX; lia|].
  apply Z.div_le_lower_bound; lia.
Qed.

(** C4. Cadence at the two ends of the ramp, with [in_range = true] and the
    tunables of the second sketch (FAR 1500, NEAR 150, periods 1600..110,
    tones 400..1600), for [computePatternFromDistance] and for part 3 of the
    second sketch's loop: at [smoothed = FAR_DISTANCE] the period is
    [MAX_PERIOD] and the tone [TONE_MIN]; at every valid
    [smoothed <= NEAR_DISTANCE] the period is exactly [MIN_PERIOD] and the
    tone exactly [TONE_MAX]. *)
Theorem cadence_endpoints :
  (Sketch1.periodMs
     (Sketch1.computePatternFromDistance Sketch2.tunables Sketch2.FAR_MM true)
   = Sketch2.MAX_PERIOD_MS /\
   Sketch1.toneHz
     (Sketch1.computePatternFromDistance Sketch2.tunables Sketch2.FAR_MM true)
   = Sketch2.TONE_MIN_HZ) /\
  Sketch2.loop_pattern Sketch2.FAR_MM true
  = (Sketch2.MAX_PERIOD_MS, Sketch2.TONE_MIN_HZ) /\
  forall d, 0 <= d <= Sketch2.NEAR_MM ->
    (Sketch1.periodMs (Sketch1.computePatternFromDistance Sketch2.tunables d true)
     = Sketch2.MIN_PERIOD_MS /\
     Sketch1.toneHz (Sketch1.computePatternFromDistance Sketch2.tunables d true)
     = Sketch2.TONE_MAX_HZ) /\
    Sketch2.loop_pattern d true = (Sketch2.MIN_PERIOD_MS, Sketch2.TONE_MAX_HZ).
Proof.
  split; [split; vm_compute; reflexivity|].
  split; [vm_compute; reflexivity|].
  intros d Hd.
  assert (Hr : 0 <= d <= Sketch2.FAR_MM)
    by (unfold Sketch2.NEAR_MM, Sketch2.FAR_MM in *; lia).
  destruct (cadence_row d Hr) as (_ & _ & Hnear & _).
  destruct (Hnear (proj2 Hd)) as [Hp Ht].
  split; [split; assumption|].
  rewrite loop_pattern_eq, Hp, Ht. reflexivity.
Qed.

Lemma cadence_endpoints_witness :
  Sketch2.loop_pattern 150 true = (Sketch2.MIN_PERIOD_MS, Sketch2.TONE_MAX_HZ).
Proof.
  destruct cadence_endpoints as (_ & _ & H).
  apply (H 150). unfold Sketch2.NEAR_MM. lia.
Defined.

Lemma monotone_by_steps (n : nat) :
  forall d, 0 <= d -> d + Z.of_nat n <= Sketch2.FAR_MM ->
  Sketch1.periodMs (Sketch1.computePatternFromDistance Sketch2.tunables d true)
  <= Sketch1.periodMs
       (Sketch1.computePatternFromDistance Sketch2.tunables (d + Z.of_nat n) true)
  /\
  Sketch1.toneHz
    (Sketch1.computePatternFromDistance Sketch2.tunables (d + Z.of_nat n) true)
  <= Sketch1.toneHz (Sketch1.computePatternFromDistance Sketch2.tunables d true).
Proof.
  induction n as [|n IH]; intros d H0 Hn.
  - rewrite Z.add_0_r. lia.
  - rewrite Nat2Z.inj_succ in *.
    replace (d + Z.succ (Z.of_nat n)) with ((d + 1) + Z.of_nat n) by lia.
    assert (Hr : 0 <= d <= Sketch2.FAR_MM) by lia.
    destruct (cadence_row d Hr) as (_ & _ & _ & Hstep).
    destruct (Hstep ltac:(lia)) as [Hp Ht].
    destruct (IH (d + 1) ltac:(lia) ltac:(lia)) as [Hp' Ht'].
    lia.
Qed.

(** C5. Monotonicity of the cadence in range, at the tunables of the second
    sketch and for both sketches: for distances [d1 > d2] in
    [NEAR_DISTANCE, FAR_DISTANCE], the period at the nearer distance [d2] is
    at most the period at [d1], and the tone at [d2] is at least the tone
    at [d1]. *)
Theorem cadence_monotone (d1 d2 : Z) :
  Sketch2.NEAR_MM <= d2 -> d2 < d1 -> d1 <= Sketch2.FAR_MM ->
  (Sketch1.periodMs (Sketch1.computePatternFromDistance Sketch2.tunables d2 true)
   <= Sketch1.periodMs (Sketch1.computePatternFromDistance Sketch2.tunables d1 true)
   /\
   Sketch1.toneHz (Sketch1.computePatternFromDistance Sketch2.tunables d1 true)
   <= Sketch1.toneHz (Sketch1.computePatternFromDistance Sketch2.tunables d2 true))
  /\
  (fst (Sketch2.loop_pattern d2 true) <= fst (Sketch2.loop_pattern d1 true) /\
   snd (Sketch2.loop_pattern d1 true) <= snd (Sketch2.loop_pattern d2 true)).
Proof.
  intros Hn Hlt Hf. rewrite !loop_pattern_eq. cbn [fst snd].
  unfold Sketch2.NEAR_MM in Hn.
  pose proof (monotone_by_steps (Z.to_nat (d1 - d2)) d2) as H.
  rewrite Z2Nat.id in H by lia.
  replace (d2 + (d1 - d2)) with d1 in H by lia.
  specialize (H ltac:(lia) Hf). split; exact H.
Qed.

Lemma cadence_monotone_witness :
  fst (Sketch2.loop_pattern 200 true) <= fst (Sketch2.loop_pattern 1000 true) /\
  snd (Sketch2.loop_pattern 1000 true) <= snd (Sketch2.loop_pattern 200 true).
Proof.
  apply (cadence_monotone 1000 200); unfold Sketch2.NEAR_MM, Sketch2.FAR_MM; lia.
Defined.

(** The cadence is not constant on the ramp: it does change with distance. *)
Example cadence_ramps :
  Sketch2.loop_pattern 1000 true = (1524, 461) /\
  Sketch2.loop_pattern 200 true = (269, 1472).
Proof. split; vm_compute; reflexivity. Qed.

(* ===================================================================== *)
(** * Cadence: the ON/OFF split *)
(* ===================================================================== *)

Lemma truncated_on_duration_eq (period : Z) :
  truncated_on_duration period = period * 3 / 10.
Proof.
  unfold truncated_on_duration.
  replace (period * 30) with (period * 3 * 10) by lia.
  change 100 with (10 * 10).
  apply Z.div_mul_cancel_r; lia.
Qed.

(** C6, as stated, fails: the on-duration of a computed cadence is not
    always the period times the on-fraction rounded to the nearest integer.
    At 450 mm the period is 899 ms; 899 x 0.30 = 269.7 rounds to 270, the
    code yields 269. *)
Lemma on_duration_not_rounded :
  ~ (forall (cfg : Sketch1.Tunables) (d : Z) (r : bool),
       Sketch1.onMs (Sketch1.computePatternFromDistance cfg d r)
       = rounded_on_duration
           (Sketch1.periodMs (Sketch1.computePatternFromDistance cfg d r))).
Proof.
  intros H. specialize (H Sketch2.tunables 450 true).
  vm_compute in H. discriminate H.
Qed.

(** C6, amended.  For every cadence the mapper computes, in range or not,
    with a period that is a non-negative [int], the on-duration is the
    period times the on-fraction 0.30 with the fractional part discarded
    (rounded toward zero, not to the nearest integer).  The same holds of
    the [onMs] local of the second sketch. *)
Theorem on_duration_truncated (cfg : Sketch1.Tunables) (d : Z) (r : bool) :
  0 <= Sketch1.periodMs (Sketch1.computePatternFromDistance cfg d r) <= INT_MAX ->
  Sketch1.onMs (Sketch1.computePatternFromDistance cfg d r)
  = truncated_on_duration
      (Sketch1.periodMs (Sketch1.computePatternFromDistance cfg d r))
  /\
  Sketch2.loop_onMs (Sketch1.periodMs (Sketch1.computePatternFromDistance cfg d r))
  = truncated_on_duration
      (Sketch1.periodMs (Sketch1.computePatternFromDistance cfg d r)).
Proof.
  intros H.
  destruct (compute_split cfg d r) as [Hon _]. cbv zeta in Hon.
  rewrite Hon, truncated_on_duration_eq.
  destruct (split_row _ H) as [Hs _]. split; exact Hs.
Qed.

Lemma on_duration_truncated_witness :
  Sketch1.onMs (Sketch1.computePatternFromDistance Sketch2.tunables 450 true)
  = truncated_on_duration
      (Sketch1.periodMs (Sketch1.computePatternFromDistance Sketch2.tunables 450 true)).
Proof.
  apply (on_duration_truncated Sketch2.tunables 450 true).
  vm_compute. split; discriminate.
Defined.

(** At 450 mm: period 899, on-duration 269, where rounding gives 270. *)
Example on_duration_at_450 :
  Sketch1.computePatternFromDistance Sketch2.tunables 450 true
  = Sketch1.mkPatternParams 899 965 269 630 /\
  rounded_on_duration 899 = 270 /\ truncated_on_duration 899 = 269.
Proof. repeat split; vm_compute; reflexivity. Qed.

Lemma wrap_ulong_split (period on : Z) :
  wrap_ulong (on + wrap_ulong (wrap_ulong period - on)) = wrap_ulong period.
Proof.
  unfold wrap_ulong, ULONG_MOD.
  rewrite Zplus_mod_idemp_r.
  replace (on + (period mod 4294967296 - on)) with (period mod 4294967296) by lia.
  apply Z.mod_mod. lia.
Qed.

(** C7. For every computed cadence, [on_duration + off_duration = period]:
    on the 32-bit counter for any period whatever, and as plain integers
    for every period that is a non-negative [int], rounding edge cases
    included.  The same holds of the [onMs] and [offMs] locals of the second
    sketch.  A period of 111 with the on-fraction 0.30 gives on = 33 and
    off = 78. *)
Theorem on_off_sum (cfg : Sketch1.Tunables) (d : Z) (r : bool) :
  let p := Sketch1.computePatternFromDistance cfg d r in
  wrap_ulong (Sketch1.onMs p + Sketch1.offMs p) = wrap_ulong (Sketch1.periodMs p)
  /\
  (0 <= Sketch1.periodMs p <= INT_MAX ->
   Sketch1.onMs p + Sketch1.offMs p = Sketch1.periodMs p /\
   Sketch2.loop_onMs (Sketch1.periodMs p)
   + Sketch2.loop_offMs (Sketch1.periodMs p)
       (Sketch2.loop_onMs (Sketch1.periodMs p))
   = Sketch1.periodMs p)
  /\
  (Sketch2.loop_onMs 111 = 33 /\ Sketch2.loop_offMs 111 33 = 78).
Proof.
  intros p.
  destruct (compute_split cfg d r) as [Hon Hoff]. cbv zeta in Hon, Hoff.
  fold p in Hon, Hoff.
  split; [|split].
  - rewrite Hoff. unfold Sketch2.loop_offMs. apply wrap_ulong_split.
  - intros H. destruct (split_row _ H) as [_ Hs].
    split; [|exact Hs]. rewrite Hoff, Hon. exact Hs.
  - split; vm_compute; reflexivity.
Qed.

Lemma on_off_sum_witness :
  Sketch1.onMs (Sketch1.computePatternFromDistance
                  (Sketch1.mkTunables 1500 150 111 110 400 1600) 2000 false)
  + Sketch1.offMs (Sketch1.computePatternFromDistance
                     (Sketch1.mkTunables 1500 150 111 110 400 1600) 2000 false)
  = 111.
Proof.
  destruct (on_off_sum (Sketch1.mkTunables 1500 150 111 110 400 1600) 2000 false)
    as (_ & H & _).
  apply H. vm_compute. split; discriminate.
Defined.

(** In range, the second sketch's tunables always give such a period. *)
Lemma period_in_int_range (d : Z) :
  0 <= d <= Sketch2.FAR_MM ->
  0 <= Sketch1.periodMs (Sketch1.computePatternFromDistance Sketch2.tunables d true)
    <= INT_MAX.
Proof.
  intros H. destruct (cadence_row d H) as ((Hlo & Hhi) & _).
  unfold Sketch2.MIN_PERIOD_MS, Sketch2.MAX_PERIOD_MS, INT_MAX in *. lia.
Qed.

(* ===================================================================== *)
(** * Output driver *)
(* ===================================================================== *)

Lemma not_zero_eqb (z : Z) : z <> 0 -> (z =? 0) = false.
Proof. intros H. apply Z.eqb_neq. exact H. Qed.

Lemma leb_false_of_lt (x y : Z) : y < x -> (x <=? y) = false.
Proof. intros H. apply Z.leb_gt. exact H. Qed.

(** Part 4 of the second sketch when the sentinel is found, for a cadence
    whose ON part lasts at least a millisecond: the code falls through to
    the phase test, which cannot fire in the same pass. *)
Lemma loop_outputs_start (periodMs toneHz now : Z) (g : Sketch2.Globals)
  (b : Board) :
  Sketch2.phaseStartMs g = 0 -> 1 <= Sketch2.loop_onMs periodMs ->
  Sketch2.loop_outputs true periodMs toneHz now g b
  = (Sketch2.mkGlobals (Sketch2.last3 g) (Sketch2.idx g) now true,
     tone toneHz
       (digitalWrite PIN_LED_RED HIGH (digitalWrite PIN_LED_GREEN LOW b))).
Proof.
  intros Hs Hon. unfold Sketch2.loop_outputs. cbn [negb].
  rewrite Hs. change (0 =? 0) with true. cbv beta iota zeta.
  cbn [Sketch2.phaseOn Sketch2.phaseStartMs Sketch2.last3 Sketch2.idx].
  rewrite wrap_ulong_self, leb_false_of_lt by lia. reflexivity.
Qed.

(** C2. A tick with [in_range = false] forces READY: phase flag cleared,
    phase-start back at the "unset" sentinel 0, alarm LED and buzzer off,
    ready indicator on.  Hence when [in_range] flips from false to true,
    the first in-range tick begins a fresh ON phase (alarm LED on, tone
    started, phase-start = now) whatever phase was left over from before.
    Stated for [driveOutputs] and for part 4 of the second sketch's loop,
    there with the cadence of any in-range distance. *)
Theorem out_of_range_resets :
  (forall p now s b,
     fst (Sketch1.driveOutputs false p now s b) = Sketch1.mkPatternState 0 false /\
     ledRed (snd (Sketch1.driveOutputs false p now s b)) = LOW /\
     buzzer (snd (Sketch1.driveOutputs false p now s b)) = None /\
     ledGreen (snd (Sketch1.driveOutputs false p now s b)) = HIGH) /\
  (forall p0 t0 p now s b,
     let r0 := Sketch1.driveOutputs false p0 t0 s b in
     let r := Sketch1.driveOutputs true p now (fst r0) (snd r0) in
     fst r = Sketch1.mkPatternState now true /\
     ledRed (snd r) = HIGH /\ buzzer (snd r) = Some (Sketch1.toneHz p) /\
     ledGreen (snd r) = LOW) /\
  (forall periodMs toneHz now g b,
     let r := Sketch2.loop_outputs false periodMs toneHz now g b in
     Sketch2.phaseOn (fst r) = false /\ Sketch2.phaseStartMs (fst r) = 0 /\
     ledRed (snd r) = LOW /\ buzzer (snd r) = None /\ ledGreen (snd r) = HIGH) /\
  (forall periodMs0 toneHz0 t0 d now g b,
     0 <= d <= Sketch2.FAR_MM ->
     let r0 := Sketch2.loop_outputs false periodMs0 toneHz0 t0 g b in
     let r := Sketch2.loop_outputs true (fst (Sketch2.loop_pattern d true))
                (snd (Sketch2.loop_pattern d true)) now (fst r0) (snd r0) in
     Sketch2.phaseOn (fst r) = true /\ Sketch2.phaseStartMs (fst r) = now /\
     ledRed (snd r) = HIGH /\
     buzzer (snd r) = Some (snd (Sketch2.loop_pattern d true)) /\
     ledGreen (snd r) = LOW).
Proof.
  split; [|split; [|split]].
  - intros p now s b. repeat split.
  - intros p0 t0 p now s b. repeat split.
  - intros periodMs toneHz now g b. repeat split.
  - intros periodMs0 toneHz0 t0 d now g b Hd r0 r.
    subst r. rewrite loop_outputs_start.
    + repeat split.
    + reflexivity.
    + rewrite loop_pattern_eq. cbn [fst]. apply onMs_positive, Hd.
Qed.

Lemma out_of_range_resets_witness :
  let r0 := Sketch2.loop_outputs false 1600 400 5000
              (Sketch2.mkGlobals [2000; 2000; 2000] 0 4000 false) board0 in
  let r := Sketch2.loop_outputs true (fst (Sketch2.loop_pattern 800 true))
             (snd (Sketch2.loop_pattern 800 true)) 5030 (fst r0) (snd r0) in
  Sketch2.phaseOn (fst r) = true /\ Sketch2.phaseStartMs (fst r) = 5030 /\
  ledRed (snd r) = HIGH /\
  buzzer (snd r) = Some (snd (Sketch2.loop_pattern 800 true)) /\
  ledGreen (snd r) = LOW.
Proof.
  destruct out_of_range_resets as (_ & _ & _ & H).
  apply (H 1600 400 5000 800 5030). unfold Sketch2.FAR_MM. lia.
Defined.

(** One in-range pass of [driveOutputs] from a phase that has started. *)
Lemma driveOutputs_timed (p : Sketch1.PatternParams) (now : Z)
  (s : Sketch1.PatternState) (b : Board) :
  Sketch1.phaseStartMs s <> 0 ->
  Sketch1.driveOutputs true p now s b
  = if Sketch1.phaseOn s then
      if Sketch1.onMs p <=? wrap_ulong (now - Sketch1.phaseStartMs s)
      then (Sketch1.mkPatternState now false,
            noTone (digitalWrite PIN_LED_RED LOW
                      (digitalWrite PIN_LED_GREEN LOW b)))
      else (s, digitalWrite PIN_LED_GREEN LOW b)
    else
      if Sketch1.offMs p <=? wrap_ulong (now - Sketch1.phaseStartMs s)
      then (Sketch1.mkPatternState now true,
            tone (Sketch1.toneHz p)
              (digitalWrite PIN_LED_RED HIGH
                 (digitalWrite PIN_LED_GREEN LOW b)))
      else (s, digitalWrite PIN_LED_GREEN LOW b).
Proof.
  intros Hs. unfold Sketch1.driveOutputs. cbn [negb].
  rewrite (not_zero_eqb _ Hs).
  destruct (Sketch1.phaseOn s);
    match goal with |- context [?x <=? ?y] => destruct (x <=? y) end;
    reflexivity.
Qed.

Lemma loop_outputs_timed (periodMs toneHz now : Z) (g : Sketch2.Globals)
  (b : Board) :
  Sketch2.phaseStartMs g <> 0 ->
  Sketch2.loop_outputs true periodMs toneHz now g b
  = if Sketch2.phaseOn g then
      if Sketch2.loop_onMs periodMs <=? wrap_ulong (now - Sketch2.phaseStartMs g)
      then (Sketch2.mkGlobals (Sketch2.last3 g) (Sketch2.idx g) now false,
            noTone (digitalWrite PIN_LED_RED LOW
                      (digitalWrite PIN_LED_GREEN LOW b)))
      else (g, digitalWrite PIN_LED_GREEN LOW b)
    else
      if Sketch2.loop_offMs periodMs (Sketch2.loop_onMs periodMs)
           <=? wrap_ulong (now - Sketch2.phaseStartMs g)
      then (Sketch2.mkGlobals (Sketch2.last3 g) (Sketch2.idx g) now true,
            tone toneHz
              (digitalWrite PIN_LED_RED HIGH
                 (digitalWrite PIN_LED_GREEN LOW b)))
      else (g, digitalWrite PIN_LED_GREEN LOW b).
Proof.
  intros Hs. unfold Sketch2.loop_outputs. cbn [negb].
  rewrite (not_zero_eqb _ Hs). cbv beta iota zeta.
  destruct (Sketch2.phaseOn g);
    match goal with |- context [?x <=? ?y] => destruct (x <=? y) end;
    reflexivity.
Qed.

(** C8. In the ALARM/ON phase ([in_range = true], phase flag on,
    phase-start set), a tick at which the elapsed time [now - phase_start]
    (on the 32-bit millisecond counter) is exactly the on-duration goes to
    the OFF phase: the comparison is [>=].  The phase flag is cleared,
    phase-start becomes [now], the alarm LED goes off and the tone stops.
    One millisecond earlier nothing changes.  Both sketches. *)
Theorem on_phase_boundary_inclusive :
  (forall p now s b,
     Sketch1.phaseOn s = true -> Sketch1.phaseStartMs s <> 0 ->
     (wrap_ulong (now - Sketch1.phaseStartMs s) = Sketch1.onMs p ->
      fst (Sketch1.driveOutputs true p now s b)
      = Sketch1.mkPatternState now false /\
      ledRed (snd (Sketch1.driveOutputs true p now s b)) = LOW /\
      buzzer (snd (Sketch1.driveOutputs true p now s b)) = None) /\
     (wrap_ulong (now - Sketch1.phaseStartMs s) = Sketch1.onMs p - 1 ->
      fst (Sketch1.driveOutputs true p now s b) = s)) /\
  (forall periodMs toneHz now g b,
     Sketch2.phaseOn g = true -> Sketch2.phaseStartMs g <> 0 ->
     (wrap_ulong (now - Sketch2.phaseStartMs g) = Sketch2.loop_onMs periodMs ->
      let r := Sketch2.loop_outputs true periodMs toneHz now g b in
      Sketch2.phaseOn (fst r) = false /\ Sketch2.phaseStartMs (fst r) = now /\
      ledRed (snd r) = LOW /\ buzzer (snd r) = None) /\
     (wrap_ulong (now - Sketch2.phaseStartMs g) = Sketch2.loop_onMs periodMs - 1 ->
      fst (Sketch2.loop_outputs true periodMs toneHz now g b) = g)).
Proof.
  split.
  - intros p now s b Hon Hs. rewrite (driveOutputs_timed _ _ _ _ Hs), Hon.
    split; intros He; rewrite He.
    + rewrite Z.leb_refl. repeat split.
    + rewrite leb_false_of_lt by lia. reflexivity.
  - intros periodMs toneHz now g b Hon Hs.
    rewrite (loop_outputs_timed _ _ _ _ _ Hs), Hon.
    split; intros He; rewrite He.
    + rewrite Z.leb_refl. repeat split.
    + rewrite leb_false_of_lt by lia. reflexivity.
Qed.

Lemma on_phase_boundary_inclusive_witness :
  fst (Sketch1.driveOutputs true
         (Sketch1.computePatternFromDistance Sketch2.tunables 150 true) 1033
         (Sketch1.mkPatternState 1000 true) board0)
  = Sketch1.mkPatternState 1033 false.
Proof.
  destruct on_phase_boundary_inclusive as [H _].
  apply (H (Sketch1.computePatternFromDistance Sketch2.tunables 150 true) 1033
           (Sketch1.mkPatternState 1000 true) board0);
    [reflexivity | cbn; discriminate | vm_compute; reflexivity].
Defined.

(** C10. The "no cycle started" sentinel is the timestamp 0, which is also
    a legitimate clock reading.  Every in-range tick that finds phase-start
    at 0 starts a fresh ON phase (phase-start = now, phase = ON, alarm LED
    on, tone on), whatever the phase flag says.  In particular a phase that
    began when the clock read 0 is started again at the next tick, tone
    call included, instead of being timed against its on-duration.  The
    second sketch does the same with the cadence of any in-range
    distance. *)
Theorem sentinel_is_clock_zero :
  (forall p now s b,
     Sketch1.phaseStartMs s = 0 ->
     Sketch1.driveOutputs true p now s b
     = (Sketch1.mkPatternState now true,
        tone (Sketch1.toneHz p)
          (digitalWrite PIN_LED_RED HIGH (digitalWrite PIN_LED_GREEN LOW b)))) /\
  (forall p0 p now s b,
     Sketch1.phaseStartMs s = 0 ->
     let r0 := Sketch1.driveOutputs true p0 0 s b in
     fst r0 = Sketch1.mkPatternState 0 true /\
     Sketch1.driveOutputs true p now (fst r0) (snd r0)
     = (Sketch1.mkPatternState now true,
        tone (Sketch1.toneHz p)
          (digitalWrite PIN_LED_RED HIGH
             (digitalWrite PIN_LED_GREEN LOW (snd r0))))) /\
  (forall d now g b,
     Sketch2.phaseStartMs g = 0 -> 0 <= d <= Sketch2.FAR_MM ->
     Sketch2.loop_outputs true (fst (Sketch2.loop_pattern d true))
       (snd (Sketch2.loop_pattern d true)) now g b
     = (Sketch2.mkGlobals (Sketch2.last3 g) (Sketch2.idx g) now true,
        tone (snd (Sketch2.loop_pattern d true))
          (digitalWrite PIN_LED_RED HIGH (digitalWrite PIN_LED_GREEN LOW b)))).
Proof.
  assert (H1 : forall p now s b,
             Sketch1.phaseStartMs s = 0 ->
             Sketch1.driveOutputs true p now s b
             = (Sketch1.mkPatternState now true,
                tone (Sketch1.toneHz p)
                  (digitalWrite PIN_LED_RED HIGH
                     (digitalWrite PIN_LED_GREEN LOW b)))).
  { intros p now s b Hs. unfold Sketch1.driveOutputs. cbn [negb].
    rewrite Hs. reflexivity. }
  split; [exact H1|]. split.
  - intros p0 p now s b Hs r0. subst r0. rewrite (H1 p0 0 s b Hs).
    split; [reflexivity|]. apply H1. reflexivity.
  - intros d now g b Hs Hd. apply loop_outputs_start; [exact Hs|].
    rewrite loop_pattern_eq. cbn [fst]. apply onMs_positive, Hd.
Qed.

Lemma sentinel_is_clock_zero_witness :
  Sketch1.driveOutputs true
    (Sketch1.computePatternFromDistance Sketch2.tunables 1500 true) 30
    (Sketch1.mkPatternState 0 true) board0
  = (Sketch1.mkPatternState 30 true,
     tone 400 (digitalWrite PIN_LED_RED HIGH
                 (digitalWrite PIN_LED_GREEN LOW board0))).
Proof.
  destruct sentinel_is_clock_zero as [H _].
  apply (H (Sketch1.computePatternFromDistance Sketch2.tunables 1500 true) 30
           (Sketch1.mkPatternState 0 true) board0).
  reflexivity.
Defined.

(** C3, as stated, fails: the threshold that ends the current phase is not
    the one in effect when the phase started.  An ON phase starts at
    t = 1000 at 1500 mm (on-duration 480 ms); 40 ms later the distance is
    150 mm (on-duration 33 ms) and the phase ends at once. *)
Lemma phase_threshold_not_frozen :
  ~ (forall (p0 p1 : Sketch1.PatternParams) (t0 t1 : Z) (b : Board),
       t0 <> 0 ->
       let r0 := Sketch1.driveOutputs true p0 t0
                   (Sketch1.mkPatternState 0 false) b in
       let r1 := Sketch1.driveOutputs true p1 t1 (fst r0) (snd r0) in
       Sketch1.phaseOn (fst r1)
       = negb (Sketch1.onMs p0 <=? wrap_ulong (t1 - t0))).
Proof.
  intros H.
  specialize (H (Sketch1.computePatternFromDistance Sketch2.tunables 1500 true)
                (Sketch1.computePatternFromDistance Sketch2.tunables 150 true)
                1000 1040 board0 ltac:(discriminate)).
  vm_compute in H. discriminate H.
Qed.

(** C3, amended.  While the driver is in an ALARM ON or OFF phase, a tick
    compares the elapsed time with the on- or off-duration of the cadence
    handed to that same tick: a changed duration applies at once to the
    phase in progress.  So an ON phase begun at [t0] under any cadence [p0]
    ends at the tick whose own cadence [p1] has [onMs p1 <= t1 - t0].  What
    a tick that does not end the phase leaves alone is the phase state
    (flag and phase-start), the alarm LED and the tone being played.  Both
    sketches. *)
Theorem phase_threshold_is_current :
  (forall p0 p1 t0 t1 b,
     t0 <> 0 ->
     let r0 := Sketch1.driveOutputs true p0 t0
                 (Sketch1.mkPatternState 0 false) b in
     let r1 := Sketch1.driveOutputs true p1 t1 (fst r0) (snd r0) in
     Sketch1.phaseOn (fst r1)
     = negb (Sketch1.onMs p1 <=? wrap_ulong (t1 - t0))) /\
  (forall p now s b,
     Sketch1.phaseStartMs s <> 0 ->
     let r := Sketch1.driveOutputs true p now s b in
     let elapsed := wrap_ulong (now - Sketch1.phaseStartMs s) in
     let due := if Sketch1.phaseOn s then Sketch1.onMs p <=? elapsed
                else Sketch1.offMs p <=? elapsed in
     fst r = (if due then Sketch1.mkPatternState now (negb (Sketch1.phaseOn s))
              else s) /\
     (due = false -> ledRed (snd r) = ledRed b /\ buzzer (snd r) = buzzer b)) /\
  (forall periodMs toneHz now g b,
     Sketch2.phaseStartMs g <> 0 ->
     let r := Sketch2.loop_outputs true periodMs toneHz now g b in
     let elapsed := wrap_ulong (now - Sketch2.phaseStartMs g) in
     let due := if Sketch2.phaseOn g then Sketch2.loop_onMs periodMs <=? elapsed
                else Sketch2.loop_offMs periodMs (Sketch2.loop_onMs periodMs)
                       <=? elapsed in
     fst r = (if due
              then Sketch2.mkGlobals (Sketch2.last3 g) (Sketch2.idx g) now
                     (negb (Sketch2.phaseOn g))
              else g) /\
     (due = false -> ledRed (snd r) = ledRed b /\ buzzer (snd r) = buzzer b)).
Proof.
  split; [|split].
  - intros p0 p1 t0 t1 b Ht r0 r1. subst r1 r0.
    change (fst (Sketch1.driveOutputs true p0 t0
                   (Sketch1.mkPatternState 0 false) b))
      with (Sketch1.mkPatternState t0 true).
    rewrite driveOutputs_timed by exact Ht.
    cbn [Sketch1.phaseOn Sketch1.phaseStartMs].
    destruct (Sketch1.onMs p1 <=? wrap_ulong (t1 - t0)); reflexivity.
  - intros p now s b Hs r elapsed due. subst r due elapsed.
    rewrite driveOutputs_timed by exact Hs.
    destruct (Sketch1.phaseOn s);
      match goal with |- context [?x <=? ?y] => destruct (x <=? y) end;
      (split; [reflexivity | intros E; try discriminate E; split; reflexivity]).
  - intros periodMs toneHz now g b Hs r elapsed due. subst r due elapsed.
    rewrite loop_outputs_timed by exact Hs.
    destruct (Sketch2.phaseOn g);
      match goal with |- context [?x <=? ?y] => destruct (x <=? y) end;
      (split; [reflexivity | intros E; try discriminate E; split; reflexivity]).
Qed.

Lemma phase_threshold_is_current_witness :
  Sketch1.phaseOn
    (fst (Sketch1.driveOutputs true
            (Sketch1.computePatternFromDistance Sketch2.tunables 150 true) 1040
            (fst (Sketch1.driveOutputs true
                    (Sketch1.computePatternFromDistance Sketch2.tunables 1500 true)
                    1000 (Sketch1.mkPatternState 0 false) board0))
            (snd (Sketch1.driveOutputs true
                    (Sketch1.computePatternFromDistance Sketch2.tunables 1500 true)
                    1000 (Sketch1.mkPatternState 0 false) board0))))
  = negb (Sketch1.onMs (Sketch1.computePatternFromDistance Sketch2.tunables 150 true)
          <=? wrap_ulong (1040 - 1000)).
Proof.
  destruct phase_threshold_is_current as [H _].
  apply (H (Sketch1.computePatternFromDistance Sketch2.tunables 1500 true)
           (Sketch1.computePatternFromDistance Sketch2.tunables 150 true)
           1000 1040 board0).
  discriminate.
Defined.

(* ===================================================================== *)
(** * The two sketches, pass by pass *)
(* ===================================================================== *)

Lemma readDistanceMm_eq (us : Z) :
  Sketch2.readDistanceMm us = Sketch1.readDistanceMmOnce us.
Proof. reflexivity. Qed.

Lemma next_idx_eq (i : Z) :
  0 <= i < 3 ->
  wrap_int (Z.rem (wrap_int (i + 1)) 3) = wrap_u8 (Z.rem (i + 1) 3) /\
  0 <= wrap_int (Z.rem (wrap_int (i + 1)) 3) < 3.
Proof.
  intros H.
  assert (Hi : i = 0 \/ i = 1 \/ i = 2) by lia.
  destruct Hi as [-> | [-> | ->]]; vm_compute; repeat split; discriminate.
Qed.

(** Part 4 of the second sketch against [driveOutputs], on the cadence of
    the first sketch at the same tunables. *)
Lemma outputs_agree (d : Z) (inRange : bool) (now : Z)
  (l : list Z) (i ps : Z) (po : bool) (b : Board) :
  (inRange = true -> 0 <= d <= Sketch2.FAR_MM) ->
  let p := Sketch1.computePatternFromDistance Sketch2.tunables d inRange in
  let r1 := Sketch1.driveOutputs inRange p now (Sketch1.mkPatternState ps po) b in
  Sketch2.loop_outputs inRange (Sketch1.periodMs p) (Sketch1.toneHz p) now
    (Sketch2.mkGlobals l i ps po) b
  = (Sketch2.mkGlobals l i (Sketch1.phaseStartMs (fst r1))
       (Sketch1.phaseOn (fst r1)),
     snd r1).
Proof.
  intros Hd p r1. subst r1.
  destruct inRange; [|reflexivity].
  specialize (Hd eq_refl).
  destruct (compute_split Sketch2.tunables d true) as [Hon Hoff].
  cbv zeta in Hon, Hoff. fold p in Hon, Hoff.
  destruct (Z.eq_dec ps 0) as [->|Hps].
  - rewrite loop_outputs_start;
      [reflexivity | reflexivity | apply onMs_positive, Hd].
  - rewrite loop_outputs_timed, driveOutputs_timed by exact Hps.
    cbn [Sketch1.phaseOn Sketch1.phaseStartMs
         Sketch2.phaseOn Sketch2.phaseStartMs Sketch2.last3 Sketch2.idx].
    rewrite Hoff, Hon.
    destruct po;
      match goal with |- context [?x <=? ?y] => destruct (x <=? y) end;
      reflexivity.
Qed.

Lemma loop_agree (us now : Z) (g1 : Sketch1.Globals) (g2 : Sketch2.Globals)
  (b : Board) :
  same_globals g1 g2 -> 0 <= Sketch2.idx g2 < 3 ->
  same_globals (fst (Sketch1.loop Sketch2.tunables us now g1 b))
               (fst (Sketch2.loop us now g2 b)) /\
  snd (Sketch1.loop Sketch2.tunables us now g1 b) = snd (Sketch2.loop us now g2 b) /\
  0 <= Sketch2.idx (fst (Sketch2.loop us now g2 b)) < 3.
Proof.
  destruct g1 as [buf i1 [ps1 po1]], g2 as [l i ps po].
  unfold same_globals.
  cbn [Sketch1.distanceBuf Sketch1.distanceIdx Sketch1.pattern
       Sketch1.phaseStartMs Sketch1.phaseOn
       Sketch2.last3 Sketch2.idx Sketch2.phaseStartMs Sketch2.phaseOn].
  intros (-> & -> & -> & ->) Hi.
  destruct (next_idx_eq i Hi) as [Hidx Hrange].
  unfold Sketch1.loop, Sketch2.loop, Sketch1.readAndSmoothDistanceMm,
    Sketch1.logStatus.
  cbv beta iota zeta.
  cbn [Sketch1.distanceBuf Sketch1.distanceIdx Sketch1.pattern
       Sketch2.last3 Sketch2.idx Sketch2.phaseStartMs Sketch2.phaseOn].
  change (Sketch2.readDistanceMm us) with (Sketch1.readDistanceMmOnce us).
  rewrite median3_eq, Hidx.
  set (l' := aset l i (Sketch1.readDistanceMmOnce us)).
  set (d := Sketch1.medianOf3_allowInvalid (aget l' 0) (aget l' 1) (aget l' 2)).
  set (inRange := (0 <=? d) && (d <=? Sketch2.FAR_MM)).
  change (Sketch1.FAR_DISTANCE_MM Sketch2.tunables) with Sketch2.FAR_MM.
  fold inRange.
  rewrite loop_pattern_eq.
  set (p := Sketch1.computePatternFromDistance Sketch2.tunables d inRange).
  assert (Hd : inRange = true -> 0 <= d <= Sketch2.FAR_MM).
  { unfold inRange. intros E. apply andb_prop in E as [E1 E2].
    apply Z.leb_le in E1. apply Z.leb_le in E2. lia. }
  pose proof (outputs_agree d inRange now l' (wrap_u8 (Z.rem (i + 1) 3))
                ps po b Hd) as Ho.
  cbv zeta in Ho. fold p in Ho. rewrite Ho.
  destruct (Sketch1.driveOutputs inRange p now (Sketch1.mkPatternState ps po) b)
    as [s b'].
  cbn [fst snd Sketch1.distanceBuf Sketch1.distanceIdx Sketch1.pattern
       Sketch2.last3 Sketch2.idx Sketch2.phaseStartMs Sketch2.phaseOn].
  rewrite <- Hidx. repeat split; try reflexivity; apply Hrange.
Qed.

Lemma run_agree (inputs : list (Z * Z)) :
  forall g1 g2 b,
  same_globals g1 g2 -> 0 <= Sketch2.idx g2 < 3 ->
  same_globals (fst (run1 Sketch2.tunables inputs g1 b)) (fst (run2 inputs g2 b)) /\
  snd (run1 Sketch2.tunables inputs g1 b) = snd (run2 inputs g2 b).
Proof.
  induction inputs as [|[us now] inputs IH]; intros g1 g2 b Hg Hi.
  - split; [exact Hg | reflexivity].
  - unfold run1, run2. cbn [fold_left].
    destruct (loop_agree us now g1 g2 b Hg Hi) as (Hg' & Hb' & Hi').
    destruct (Sketch1.loop Sketch2.tunables us now g1 b) as [g1' b1'],
             (Sketch2.loop us now g2 b) as [g2' b2'].
    cbn [fst snd] in Hg', Hb', Hi'. subst b2'.
    apply (IH g1' g2' b1' Hg' Hi').
Qed.

(** C9. The two sketches behave alike.  With the first sketch built with
    the tunables of the second (FAR 1500, NEAR 150, periods 1600 and 110,
    on-fraction 0.30, tones 400 and 1600), every sequence of sensor
    readings and clock values takes both, from power-up, to the same
    file-scope variables (smoothing buffer, write index, phase flag and
    phase-start) and to the same board: same LED and buzzer state, same
    actuator calls in the same order, same status lines.  Stage by stage:
    the sample, the smoothed distance, the period and tone, and the ON/OFF
    split are computed alike. *)
Theorem sketches_agree :
  (forall inputs : list (Z * Z),
     same_globals (fst (run1 Sketch2.tunables inputs Sketch1.globals0 board0))
                  (fst (run2 inputs Sketch2.globals0 board0)) /\
     snd (run1 Sketch2.tunables inputs Sketch1.globals0 board0)
     = snd (run2 inputs Sketch2.globals0 board0)) /\
  (forall us, Sketch2.readDistanceMm us = Sketch1.readDistanceMmOnce us) /\
  (forall a b c, Sketch2.median3 a b c = Sketch1.medianOf3_allowInvalid a b c) /\
  (forall d r,
     let p := Sketch1.computePatternFromDistance Sketch2.tunables d r in
     Sketch2.loop_pattern d r = (Sketch1.periodMs p, Sketch1.toneHz p) /\
     Sketch2.loop_onMs (Sketch1.periodMs p) = Sketch1.onMs p /\
     Sketch2.loop_offMs (Sketch1.periodMs p) (Sketch1.onMs p) = Sketch1.offMs p).
Proof.
  split; [|split; [|split]].
  - intros inputs. apply run_agree.
    + repeat split.
    + cbn. lia.
  - apply readDistanceMm_eq.
  - apply median3_eq.
  - intros d r p. subst p.
    destruct (compute_split Sketch2.tunables d r) as [Hon Hoff].
    cbv zeta in Hon, Hoff.
    split; [apply loop_pattern_eq | split; symmetry; assumption].
Qed.

(** A run of both sketches: three echoes around 810 mm. *)
Example run_sample :
  serial (snd (run2 [(4723, 100); (4665, 140); (4781, 170)]
                    Sketch2.globals0 board0))
  = ["mm=810  inRange=1  periodMs=1401  toneHz=560";
     "mm=805  inRange=1  periodMs=1397  toneHz=564";
     "mm=810  inRange=1  periodMs=1401  toneHz=560"]
  /\ issued (snd (run1 Sketch2.tunables [(4723, 100); (4665, 140); (4781, 170)]
                       Sketch1.globals0 board0))
  = [CDigitalWrite PIN_LED_GREEN LOW; CDigitalWrite PIN_LED_RED HIGH; CTone 560;
     CDigitalWrite PIN_LED_GREEN LOW; CDigitalWrite PIN_LED_GREEN LOW].
Proof. split; vm_compute; reflexivity. Qed.

(* ===================================================================== *)
(** * Range sampler *)
(* ===================================================================== *)

Lemma echo_table : forall_range echo_row_ok 0 Sketch1.TIMEOUT_US = true.
Proof. vm_compute. reflexivity. Qed.

Lemma echo_back_table : forall_range echo_back_row_ok 1 6000 = true.
Proof. vm_compute. reflexivity. Qed.

Lemma echo_row (us : Z) :
  0 <= us <= Sketch1.TIMEOUT_US ->
  Sketch1.readDistanceMmOnce us
  = if (1 <=? us) && (us <=? MAX_VALID_US) then nearest_mm us else -1.
Proof.
  intros H. apply Z.eqb_eq.
  exact (forall_range_spec _ _ _ echo_table us H).
Qed.

Lemma echo_row_valid (us : Z) :
  1 <= us <= MAX_VALID_US -> Sketch1.readDistanceMmOnce us = nearest_mm us.
Proof.
  intros H. rewrite echo_row.
  - replace (1 <=? us) with true by (symmetry; apply Z.leb_le; lia).
    replace (us <=? MAX_VALID_US) with true by (symmetry; apply Z.leb_le; lia).
    reflexivity.
  - unfold MAX_VALID_US, Sketch1.TIMEOUT_US in *. lia.
Qed.

Lemma nearest_mm_mono (u v : Z) : u <= v -> nearest_mm u <= nearest_mm v.
Proof.
  intros H. unfold nearest_mm, round_div.
  apply Z.div_le_mono; lia.
Qed.

(** The sample of an echo.  Within the [pulseIn] timeout, an echo of 1 to
    34985 microseconds converts to its distance [us * 0.343 / 2] rounded to
    the nearest millimetre, which lies in [0, 6000]; a timeout (0) and every
    wider echo give the invalid marker.  Both sketches. *)
Theorem echo_to_distance (us : Z) :
  0 <= us <= Sketch1.TIMEOUT_US ->
  Sketch2.readDistanceMm us = Sketch1.readDistanceMmOnce us /\
  (1 <= us <= MAX_VALID_US ->
   Sketch1.readDistanceMmOnce us = nearest_mm us /\
   0 <= Sketch1.readDistanceMmOnce us <= 6000) /\
  (us = 0 \/ MAX_VALID_US < us -> Sketch1.readDistanceMmOnce us = -1).
Proof.
  intros H. split; [reflexivity|]. split.
  - intros Hv. split; [apply echo_row_valid, Hv|].
    destruct (readDistanceMmOnce_sample us H) as [E|E]; [|exact E].
    rewrite echo_row_valid in E by exact Hv.
    assert (0 <= nearest_mm us); [|lia].
    unfold nearest_mm, round_div. apply Z.div_pos; lia.
  - intros Hi. rewrite (echo_row us H).
    destruct Hi as [-> | Hi]; [reflexivity|].
    replace (us <=? MAX_VALID_US) with false by (symmetry; apply Z.leb_gt; lia).
    rewrite andb_false_r. reflexivity.
Qed.

Lemma echo_to_distance_witness :
  Sketch1.readDistanceMmOnce 4665 = nearest_mm 4665 /\
  0 <= Sketch1.readDistanceMmOnce 4665 <= 6000.
Proof.
  destruct (echo_to_distance 4665) as (_ & H & _).
  - unfold Sketch1.TIMEOUT_US. lia.
  - apply H. unfold MAX_VALID_US. lia.
Defined.

(** A wider echo never reads as a nearer target. *)
Theorem echo_monotone (us1 us2 : Z) :
  1 <= us1 -> us1 <= us2 -> us2 <= MAX_VALID_US ->
  Sketch1.readDistanceMmOnce us1 <= Sketch1.readDistanceMmOnce us2.
Proof.
  intros H1 H12 H2.
  rewrite !echo_row_valid by lia. apply nearest_mm_mono, H12.
Qed.

Lemma echo_monotone_witness :
  Sketch1.readDistanceMmOnce 875 <= Sketch1.readDistanceMmOnce 8746.
Proof. apply echo_monotone; unfold MAX_VALID_US; lia. Defined.

(** Every distance from 1 to 6000 mm is the sample of some echo: the one
    whose width is nearest to [mm / 0.1715] microseconds. *)
Theorem distance_round_trip (mm : Z) :
  1 <= mm <= 6000 ->
  1 <= nearest_us mm <= MAX_VALID_US /\
  Sketch1.readDistanceMmOnce (nearest_us mm) = mm.
Proof.
  intros H. pose proof (forall_range_spec _ _ _ echo_back_table mm H) as Hr.
  unfold echo_back_row_ok in Hr.
  apply andb_prop in Hr as [Hr H3]. apply andb_prop in Hr as [H1 H2].
  apply Z.leb_le in H1. apply Z.leb_le in H2. apply Z.eqb_eq in H3.
  split; [lia|]. rewrite echo_row_valid by lia. exact H3.
Qed.

Lemma distance_round_trip_witness :
  Sketch1.readDistanceMmOnce (nearest_us 810) = 810.
Proof. apply (distance_round_trip 810). lia. Defined.

(* ===================================================================== *)
(** * Smoother: order, bounds and the sliding window *)
(* ===================================================================== *)

Lemma medianOf3_swap12 (a b c : Z) :
  Sketch1.medianOf3_allowInvalid a b c = Sketch1.medianOf3_allowInvalid b a c.
Proof.
  rewrite !medianOf3_cases.
  destruct (0 <=? a), (0 <=? b), (0 <=? c); try reflexivity.
  - repeat match goal with
           | |- context [Z.ltb ?x ?y] => destruct (Z.ltb_spec x y)
           end; lia.
  - rewrite (Z.add_comm b a). reflexivity.
Qed.

Lemma medianOf3_swap23 (a b c : Z) :
  Sketch1.medianOf3_allowInvalid a b c = Sketch1.medianOf3_allowInvalid a c b.
Proof.
  rewrite !medianOf3_cases.
  destruct (0 <=? a), (0 <=? b), (0 <=? c); try reflexivity.
  - repeat match goal with
           | |- context [Z.ltb ?x ?y] => destruct (Z.ltb_spec x y)
           end; lia.
  - rewrite (Z.add_comm c b). reflexivity.
Qed.

Lemma half_sum_between (x y lo hi : Z) :
  0 <= x -> 0 <= y -> lo <= x <= hi -> lo <= y <= hi ->
  lo <= Z.quot (x + y) 2 <= hi.
Proof.
  intros Hx Hy Hlx Hly.
  rewrite Z.quot_div_nonneg by lia.
  split.
  - apply Z.div_le_lower_bound; lia.
  - apply Z.div_le_upper_bound; lia.
Qed.

Lemma medianOf3_between (a b c lo hi : Z) :
  no_overflow a -> no_overflow b -> no_overflow c ->
  (0 <= a -> lo <= a <= hi) -> (0 <= b -> lo <= b <= hi) ->
  (0 <= c -> lo <= c <= hi) ->
  0 <= a \/ 0 <= b \/ 0 <= c ->
  lo <= Sketch1.medianOf3_allowInvalid a b c <= hi.
Proof.
  unfold no_overflow, INT_MIN, INT_MAX.
  change (32767 / 2) with 16383.
  intros Na Nb Nc Ha Hb Hc Hv.
  rewrite medianOf3_cases.
  destruct (Z.leb_spec 0 a), (Z.leb_spec 0 b), (Z.leb_spec 0 c);
    try lia;
    try (rewrite wrap_int_small by (unfold INT_MIN, INT_MAX; lia);
         apply half_sum_between; lia).
  repeat match goal with
         | |- context [Z.ltb ?x ?y] => destruct (Z.ltb_spec x y)
         end; lia.
Qed.

(** The smoothing function does not depend on the order of its three
    arguments, so the position of the write index in the circular buffer
    does not matter.  Both sketches. *)
Theorem smoothing_is_symmetric (a b c : Z) :
  (Sketch1.medianOf3_allowInvalid a b c = Sketch1.medianOf3_allowInvalid b a c /\
   Sketch1.medianOf3_allowInvalid a b c = Sketch1.medianOf3_allowInvalid a c b /\
   Sketch1.medianOf3_allowInvalid a b c = Sketch1.medianOf3_allowInvalid c a b) /\
  (Sketch2.median3 a b c = Sketch2.median3 b a c /\
   Sketch2.median3 a b c = Sketch2.median3 a c b /\
   Sketch2.median3 a b c = Sketch2.median3 c a b).
Proof.
  assert (H : Sketch1.medianOf3_allowInvalid a b c
              = Sketch1.medianOf3_allowInvalid c a b).
  { rewrite (medianOf3_swap23 a b c). apply medianOf3_swap12. }
  rewrite !median3_eq.
  split; (split; [apply medianOf3_swap12 | split; [apply medianOf3_swap23 | exact H]]).
Qed.

(** The smoothed value never leaves the span of the valid entries: any
    bounds [lo <= hi] that hold of every valid entry hold of the result, as
    soon as one entry is valid.  In particular the result is then valid
    itself. *)
Theorem smoothing_stays_within (a b c lo hi : Z) :
  no_overflow a -> no_overflow b -> no_overflow c ->
  (0 <= a -> lo <= a <= hi) -> (0 <= b -> lo <= b <= hi) ->
  (0 <= c -> lo <= c <= hi) ->
  0 <= a \/ 0 <= b \/ 0 <= c ->
  lo <= Sketch1.medianOf3_allowInvalid a b c <= hi /\
  lo <= Sketch2.median3 a b c <= hi /\
  0 <= Sketch1.medianOf3_allowInvalid a b c.
Proof.
  intros Na Nb Nc Ha Hb Hc Hv. rewrite median3_eq.
  pose proof (medianOf3_between a b c lo hi Na Nb Nc Ha Hb Hc Hv) as H.
  split; [exact H|]. split; [exact H|].
  assert (H0 : 0 <= Sketch1.medianOf3_allowInvalid a b c <= 16383); [|lia].
  apply (medianOf3_between a b c 0 16383); try assumption;
    unfold no_overflow, INT_MIN, INT_MAX in *;
    change (32767 / 2) with 16383 in *; lia.
Qed.

Lemma smoothing_stays_within_witness :
  800 <= Sketch1.medianOf3_allowInvalid 800 (-1) 820 <= 820.
Proof.
  apply (smoothing_stays_within 800 (-1) 820 800 820);
    unfold no_overflow; vm_compute; intuition discriminate.
Defined.

Lemma median_between_two (a b x : Z) :
  0 <= a -> 0 <= b -> 0 <= x ->
  Z.min a b <= Sketch1.medianOf3_allowInvalid a b x <= Z.max a b.
Proof.
  intros Ha Hb Hx. rewrite medianOf3_cases.
  destruct (Z.leb_spec 0 a), (Z.leb_spec 0 b), (Z.leb_spec 0 x); try lia.
  repeat match goal with
         | |- context [Z.ltb ?u ?v] => destruct (Z.ltb_spec u v)
         end; lia.
Qed.

(** One reading cannot drag the smoothed value past the other two: with
    three valid entries the result lies between any two of them, whatever
    the third is. *)
Theorem lone_outlier_is_rejected (a b x : Z) :
  0 <= a -> 0 <= b -> 0 <= x ->
  Z.min a b <= Sketch1.medianOf3_allowInvalid a b x <= Z.max a b /\
  Z.min a b <= Sketch1.medianOf3_allowInvalid a x b <= Z.max a b /\
  Z.min a b <= Sketch1.medianOf3_allowInvalid x a b <= Z.max a b /\
  Z.min a b <= Sketch2.median3 a b x <= Z.max a b.
Proof.
  intros Ha Hb Hx.
  pose proof (median_between_two a b x Ha Hb Hx) as H.
  rewrite median3_eq.
  rewrite <- (medianOf3_swap23 a b x).
  rewrite <- (medianOf3_swap12 a x b), <- (medianOf3_swap23 a b x).
  repeat split; apply H.
Qed.

Lemma lone_outlier_is_rejected_witness :
  Z.min 2000 2010 <= Sketch1.medianOf3_allowInvalid 2000 2010 35 <= Z.max 2000 2010.
Proof. apply (lone_outlier_is_rejected 2000 2010 35); lia. Defined.

(** The smoother is a sliding window of three samples.  Whatever the buffer
    held, after three passes the smoothed distance is the smoothing function
    of the last three samples alone, the buffer holds exactly those, and the
    write index has come full circle. *)
Theorem smoother_is_sliding_window (us1 us2 us3 : Z) (g : Sketch1.Globals) :
  length (Sketch1.distanceBuf g) = 3%nat ->
  0 <= Sketch1.distanceIdx g < 3 ->
  let r1 := Sketch1.readAndSmoothDistanceMm us1 g in
  let r2 := Sketch1.readAndSmoothDistanceMm us2 (snd r1) in
  let r3 := Sketch1.readAndSmoothDistanceMm us3 (snd r2) in
  fst r3 = Sketch1.medianOf3_allowInvalid (Sketch1.readDistanceMmOnce us1)
             (Sketch1.readDistanceMmOnce us2) (Sketch1.readDistanceMmOnce us3) /\
  Sketch1.distanceIdx (snd r3) = Sketch1.distanceIdx g /\
  Permutation (Sketch1.distanceBuf (snd r3))
    [Sketch1.readDistanceMmOnce us1; Sketch1.readDistanceMmOnce us2;
     Sketch1.readDistanceMmOnce us3].
Proof.
  destruct g as [buf i s]. cbn [Sketch1.distanceBuf Sketch1.distanceIdx].
  intros Hlen Hi.
  destruct buf as [|a [|b [|c [|? ?]]]]; try discriminate Hlen.
  unfold Sketch1.readAndSmoothDistanceMm.
  generalize (Sketch1.readDistanceMmOnce us1) (Sketch1.readDistanceMmOnce us2)
             (Sketch1.readDistanceMmOnce us3).
  intros m1 m2 m3.
  assert (Hcase : i = 0 \/ i = 1 \/ i = 2) by lia.
  destruct Hcase as [-> | [-> | ->]];
    cbv -[Sketch1.medianOf3_allowInvalid].
  - repeat split. reflexivity.
  - split; [|split; [reflexivity|]].
    + rewrite (medianOf3_swap12 m3 m1 m2). apply medianOf3_swap23.
    + apply (Permutation_cons_append [m1; m2] m3).
  - split; [|split; [reflexivity|]].
    + rewrite (medianOf3_swap23 m2 m3 m1). apply medianOf3_swap12.
    + apply Permutation_sym, (Permutation_cons_append [m2; m3] m1).
Qed.


Lemma smoother_is_sliding_window_witness :
  fst (Sketch1.readAndSmoothDistanceMm 4781
         (snd (Sketch1.readAndSmoothDistanceMm 0
                 (snd (Sketch1.readAndSmoothDistanceMm 4665
                         (Sketch1.mkGlobals [35; 2000; -1] 1
                            (Sketch1.mkPatternState 0 false)))))))
  = Sketch1.medianOf3_allowInvalid (Sketch1.readDistanceMmOnce 4665)
      (Sketch1.readDistanceMmOnce 0) (Sketch1.readDistanceMmOnce 4781).
Proof.
  apply (smoother_is_sliding_window 4665 0 4781
           (Sketch1.mkGlobals [35; 2000; -1] 1 (Sketch1.mkPatternState 0 false)));
    [reflexivity | cbn; lia].
Defined.

Lemma is_sample_valid_bounds (x : Z) : is_sample x -> 0 <= x -> 0 <= x <= 6000.
Proof. unfold is_sample. lia. Qed.

Lemma smoothed_sample (a b c : Z) :
  is_sample a -> is_sample b -> is_sample c ->
  is_sample (Sketch1.medianOf3_allowInvalid a b c).
Proof.
  intros Ha Hb Hc.
  destruct (Z_lt_ge_dec a 0) as [Na|Pa];
    [destruct (Z_lt_ge_dec b 0) as [Nb|Pb];
     [destruct (Z_lt_ge_dec c 0) as [Nc|Pc]|]|].
  - left. rewrite medianOf3_cases.
    replace (0 <=? a) with false by (symmetry; apply Z.leb_gt; lia).
    replace (0 <=? b) with false by (symmetry; apply Z.leb_gt; lia).
    replace (0 <=? c) with false by (symmetry; apply Z.leb_gt; lia).
    reflexivity.
  - right. apply medianOf3_between;
      auto using is_sample_no_overflow, is_sample_valid_bounds; lia.
  - right. apply medianOf3_between;
      auto using is_sample_no_overflow, is_sample_valid_bounds; lia.
  - right. apply medianOf3_between;
      auto using is_sample_no_overflow, is_sample_valid_bounds; lia.
Qed.

(** The smoothed distance is itself a sample: in every pass over a buffer
    of samples, with an echo [pulseIn] can report, the smoother returns the
    invalid marker or a distance in [0, 6000] mm, and leaves a buffer of
    samples behind. *)
Theorem smoothed_is_a_sample (us : Z) (g : Sketch1.Globals) :
  0 <= us <= Sketch1.TIMEOUT_US ->
  buffer_ok (Sketch1.distanceBuf g) (Sketch1.distanceIdx g) ->
  is_sample (fst (Sketch1.readAndSmoothDistanceMm us g)) /\
  buffer_ok (Sketch1.distanceBuf (snd (Sketch1.readAndSmoothDistanceMm us g)))
            (Sketch1.distanceIdx (snd (Sketch1.readAndSmoothDistanceMm us g))).
Proof.
  intros Hus Hg.
  destruct (readAndSmooth_buffer us g Hus Hg) as [Hok (a & b & c & Hb & Hr & _)].
  split; [|exact Hok].
  rewrite Hr.
  destruct Hok as [(a' & b' & c' & Hb' & Ha & Hbs & Hc) _].
  rewrite Hb in Hb'. injection Hb' as -> -> ->.
  apply smoothed_sample; assumption.
Qed.

Lemma smoothed_is_a_sample_witness :
  is_sample (fst (Sketch1.readAndSmoothDistanceMm 4665 Sketch1.globals0)).
Proof.
  apply (smoothed_is_a_sample 4665 Sketch1.globals0).
  - unfold Sketch1.TIMEOUT_US. lia.
  - apply power_up_buffer.
Defined.

(* ===================================================================== *)
(** * Cadence: saturation and envelope *)
(* ===================================================================== *)

Lemma f32_same_eq (x y : f32) : f32_same x y = true -> x = y.
Proof.
  destruct x as [s|s| |s m e], y as [t|t| |t n f]; cbn [f32_same];
    try discriminate; try reflexivity.
  - intros H. apply Bool.eqb_prop in H. congruence.
  - intros H. apply Bool.eqb_prop in H. congruence.
  - intros H. apply andb_prop in H as [H He]. apply andb_prop in H as [Hs Hm].
    apply Bool.eqb_prop in Hs. apply Pos.eqb_eq in Hm. apply Z.eqb_eq in He.
    congruence.
Qed.

Lemma compute_by_norm (cfg : Sketch1.Tunables) (d : Z) :
  Sketch1.periodMs (Sketch1.computePatternFromDistance cfg d true)
  = fst (cadence_of_norm cfg (norm_clamped cfg d)) /\
  Sketch1.toneHz (Sketch1.computePatternFromDistance cfg d true)
  = snd (cadence_of_norm cfg (norm_clamped cfg d)).
Proof. split; reflexivity. Qed.

Lemma near_table :
  forall_range saturation_row_ok (-1) Sketch2.NEAR_MM = true.
Proof. vm_compute. reflexivity. Qed.

Lemma far_table :
  forall_range saturation_row_ok Sketch2.FAR_MM MAX_SAMPLE_MM = true.
Proof. vm_compute. reflexivity. Qed.

Lemma saturated_near (d : Z) :
  -1 <= d <= Sketch2.NEAR_MM ->
  Sketch1.computePatternFromDistance Sketch2.tunables d true
  = Sketch1.mkPatternParams 110 1600 33 77.
Proof.
  intros H. pose proof (forall_range_spec _ _ _ near_table d H) as Hr.
  unfold saturation_row_ok in Hr. apply f32_same_eq in Hr.
  replace (d <=? Sketch2.NEAR_MM) with true in Hr
    by (symmetry; apply Z.leb_le; lia).
  destruct (compute_by_norm Sketch2.tunables d) as [Hp Ht].
  destruct (compute_split Sketch2.tunables d true) as [Hon Hoff].
  cbv zeta in Hon, Hoff.
  rewrite Hr in Hp, Ht.
  change (fst (cadence_of_norm Sketch2.tunables lit_1_0))
    with (fst (110, 1600)) in Hp.
  change (snd (cadence_of_norm Sketch2.tunables lit_1_0))
    with (snd (110, 1600)) in Ht.
  cbn [fst snd] in Hp, Ht.
  destruct (Sketch1.computePatternFromDistance Sketch2.tunables d true)
    as [per tn on off].
  cbn [Sketch1.periodMs Sketch1.toneHz Sketch1.onMs Sketch1.offMs] in *.
  subst per tn. rewrite Hoff, Hon. reflexivity.
Qed.

Lemma saturated_far (d : Z) :
  Sketch2.FAR_MM <= d <= MAX_SAMPLE_MM ->
  Sketch1.computePatternFromDistance Sketch2.tunables d true
  = Sketch1.mkPatternParams 1600 400 480 1120.
Proof.
  intros H. pose proof (forall_range_spec _ _ _ far_table d H) as Hr.
  unfold saturation_row_ok in Hr. apply f32_same_eq in Hr.
  replace (d <=? Sketch2.NEAR_MM) with false in Hr
    by (symmetry; apply Z.leb_gt;
        unfold Sketch2.NEAR_MM, Sketch2.FAR_MM in *; lia).
  destruct (compute_by_norm Sketch2.tunables d) as [Hp Ht].
  destruct (compute_split Sketch2.tunables d true) as [Hon Hoff].
  cbv zeta in Hon, Hoff.
  rewrite Hr in Hp, Ht.
  change (fst (cadence_of_norm Sketch2.tunables lit_0_0))
    with (fst (1600, 400)) in Hp.
  change (snd (cadence_of_norm Sketch2.tunables lit_0_0))
    with (snd (1600, 400)) in Ht.
  cbn [fst snd] in Hp, Ht.
  destruct (Sketch1.computePatternFromDistance Sketch2.tunables d true)
    as [per tn on off].
  cbn [Sketch1.periodMs Sketch1.toneHz Sketch1.onMs Sketch1.offMs] in *.
  subst per tn. rewrite Hoff, Hon. reflexivity.
Qed.

(** Outside the ramp the cadence saturates.  Called with [inRange = true]
    on any sample at or beyond FAR (up to 6000 mm) the mapper returns the
    slowest cadence (1600 ms, 400 Hz, 480 on, 1120 off); on any sample at or
    inside NEAR, the invalid marker -1 included, the fastest (110 ms,
    1600 Hz, 33 on, 77 off).  Tunables of the second sketch; part 3 of its
    loop does the same. *)
Theorem cadence_saturates (d : Z) :
  (Sketch2.FAR_MM <= d <= MAX_SAMPLE_MM ->
   Sketch1.computePatternFromDistance Sketch2.tunables d true
   = Sketch1.mkPatternParams 1600 400 480 1120 /\
   Sketch2.loop_pattern d true = (1600, 400)) /\
  (-1 <= d <= Sketch2.NEAR_MM ->
   Sketch1.computePatternFromDistance Sketch2.tunables d true
   = Sketch1.mkPatternParams 110 1600 33 77 /\
   Sketch2.loop_pattern d true = (110, 1600)).
Proof.
  split; intros H; rewrite loop_pattern_eq.
  - rewrite (saturated_far d H). split; reflexivity.
  - rewrite (saturated_near d H). split; reflexivity.
Qed.

Lemma cadence_saturates_witness :
  Sketch1.computePatternFromDistance Sketch2.tunables 6000 true
  = Sketch1.mkPatternParams 1600 400 480 1120 /\
  Sketch2.loop_pattern 6000 true = (1600, 400).
Proof.
  destruct (cadence_saturates 6000) as [H _].
  apply H. unfold Sketch2.FAR_MM, MAX_SAMPLE_MM. lia.
Defined.

Lemma split_bounds (period : Z) :
  110 <= period <= 1600 ->
  33 <= Sketch2.loop_onMs period <= 480 /\
  77 <= Sketch2.loop_offMs period (Sketch2.loop_onMs period) <= 1120.
Proof.
  intros H.
  destruct (split_row period) as [Hon Hsum]; [unfold INT_MAX; lia|].
  assert (Hb : 33 <= period * 3 / 10 <= 480).
  { split; [apply Z.div_le_lower_bound | apply Z.div_le_upper_bound]; lia. }
  assert (Hc : period * 3 / 10 * 10 <= period * 3
               /\ period * 3 < (period * 3 / 10 + 1) * 10).
  { pose proof (Z.mul_div_le (period * 3) 10 ltac:(lia)).
    pose proof (Z.mul_succ_div_gt (period * 3) 10 ltac:(lia)). lia. }
  rewrite Hon in *. lia.
Qed.

(** The cadence never leaves its envelope.  For every value the smoother
    can hand over (-1 to 6000), in range or not, the period is within
    [MIN_PERIOD, MAX_PERIOD] = [110, 1600] ms, the tone within
    [TONE_MIN, TONE_MAX] = [400, 1600] Hz, the ON part within [33, 480] ms
    and the OFF part within [77, 1120] ms.  Tunables of the second sketch;
    part 3 of its loop does the same. *)
Theorem cadence_envelope (d : Z) (r : bool) :
  -1 <= d <= MAX_SAMPLE_MM ->
  let p := Sketch1.computePatternFromDistance Sketch2.tunables d r in
  (Sketch2.MIN_PERIOD_MS <= Sketch1.periodMs p <= Sketch2.MAX_PERIOD_MS) /\
  (Sketch2.TONE_MIN_HZ <= Sketch1.toneHz p <= Sketch2.TONE_MAX_HZ) /\
  (33 <= Sketch1.onMs p <= 480) /\ (77 <= Sketch1.offMs p <= 1120) /\
  Sketch2.loop_pattern d r = (Sketch1.periodMs p, Sketch1.toneHz p).
Proof.
  intros H p.
  assert (Hpt : (Sketch2.MIN_PERIOD_MS <= Sketch1.periodMs p <= Sketch2.MAX_PERIOD_MS)
                /\ (Sketch2.TONE_MIN_HZ <= Sketch1.toneHz p <= Sketch2.TONE_MAX_HZ)).
  { subst p. destruct r; [|vm_compute; intuition discriminate].
    destruct (Z_le_gt_dec d Sketch2.NEAR_MM) as [Hn|Hn];
      [|destruct (Z_le_gt_dec Sketch2.FAR_MM d) as [Hf|Hf]].
    - rewrite saturated_near by lia. vm_compute. intuition discriminate.
    - rewrite saturated_far by lia. vm_compute. intuition discriminate.
    - assert (Hd : 0 <= d <= Sketch2.FAR_MM)
        by (unfold Sketch2.NEAR_MM in *; lia).
      destruct (cadence_row d Hd) as (Hp & Ht & _). split; assumption. }
  destruct Hpt as [Hp Ht].
  destruct (compute_split Sketch2.tunables d r) as [Hon Hoff].
  cbv zeta in Hon, Hoff. fold p in Hon, Hoff.
  destruct (split_bounds (Sketch1.periodMs p)) as [Hb1 Hb2];
    [unfold Sketch2.MIN_PERIOD_MS, Sketch2.MAX_PERIOD_MS in Hp; exact Hp|].
  rewrite <- Hon in Hb1. rewrite <- Hon, <- Hoff in Hb2.
  repeat split; try lia. apply loop_pattern_eq.
Qed.

Lemma cadence_envelope_witness :
  33 <= Sketch1.onMs (Sketch1.computePatternFromDistance Sketch2.tunables 450 true)
     <= 480.
Proof.
  destruct (cadence_envelope 450 true) as (_ & _ & H & _).
  - unfold MAX_SAMPLE_MM. lia.
  - exact H.
Defined.

(* ===================================================================== *)
(** * Output driver: what the pins can and cannot show *)
(* ===================================================================== *)

Lemma driveOutputs_start (p : Sketch1.PatternParams) (now : Z)
  (s : Sketch1.PatternState) (b : Board) :
  Sketch1.phaseStartMs s = 0 ->
  Sketch1.driveOutputs true p now s b
  = (Sketch1.mkPatternState now true,
     tone (Sketch1.toneHz p)
       (digitalWrite PIN_LED_RED HIGH (digitalWrite PIN_LED_GREEN LOW b))).
Proof.
  intros Hs. unfold Sketch1.driveOutputs. cbn [negb]. rewrite Hs. reflexivity.
Qed.

Lemma driveOutputs_green (r : bool) (p : Sketch1.PatternParams) (now : Z)
  (s : Sketch1.PatternState) (b : Board) :
  ledGreen (snd (Sketch1.driveOutputs r p now s b)) = negb r /\
  (r = false ->
   ledRed (snd (Sketch1.driveOutputs r p now s b)) = LOW /\
   buzzer (snd (Sketch1.driveOutputs r p now s b)) = None).
Proof.
  unfold Sketch1.driveOutputs.
  destruct r; cbn [negb].
  - split; [|discriminate].
    destruct (Sketch1.phaseOn s); split_comparisons; reflexivity.
  - repeat split.
Qed.

Lemma loop_outputs_green (r : bool) (periodMs toneHz now : Z)
  (g : Sketch2.Globals) (b : Board) :
  ledGreen (snd (Sketch2.loop_outputs r periodMs toneHz now g b)) = negb r /\
  (r = false ->
   ledRed (snd (Sketch2.loop_outputs r periodMs toneHz now g b)) = LOW /\
   buzzer (snd (Sketch2.loop_outputs r periodMs toneHz now g b)) = None).
Proof.
  unfold Sketch2.loop_outputs.
  destruct r; cbn [negb].
  - split; [|discriminate].
    destruct (Sketch2.phaseStartMs g =? 0); cbv beta iota zeta;
      cbn [Sketch2.phaseOn Sketch2.phaseStartMs];
      try destruct (Sketch2.phaseOn g); split_comparisons; reflexivity.
  - repeat split.
Qed.

Lemma loop1_board (cfg : Sketch1.Tunables) (us now : Z) (g : Sketch1.Globals)
  (b : Board) :
  exists d r p,
    r = (0 <=? d) && (d <=? Sketch1.FAR_DISTANCE_MM cfg) /\
    d = fst (Sketch1.readAndSmoothDistanceMm us g) /\
    p = Sketch1.computePatternFromDistance cfg d r /\
    Sketch1.pattern (fst (Sketch1.loop cfg us now g b))
    = fst (Sketch1.driveOutputs r p now (Sketch1.pattern g) b) /\
    snd (Sketch1.loop cfg us now g b)
    = Sketch1.logStatus d r p
        (snd (Sketch1.driveOutputs r p now (Sketch1.pattern g) b)).
Proof.
  unfold Sketch1.loop, Sketch1.readAndSmoothDistanceMm.
  cbv beta iota zeta. cbn [Sketch1.pattern fst].
  eexists _, _, _. split; [reflexivity|]. split; [reflexivity|].
  split; [reflexivity|].
  destruct (Sketch1.driveOutputs _ _ _ _ _) as [s b']. split; reflexivity.
Qed.

Lemma loop2_board (us now : Z) (g : Sketch2.Globals) (b : Board) :
  exists d r per tn line g0,
    r = (0 <=? d) && (d <=? Sketch2.FAR_MM) /\
    (per, tn) = Sketch2.loop_pattern d r /\
    Sketch2.phaseStartMs g0 = Sketch2.phaseStartMs g /\
    Sketch2.phaseOn g0 = Sketch2.phaseOn g /\
    fst (Sketch2.loop us now g b) = fst (Sketch2.loop_outputs r per tn now g0 b) /\
    snd (Sketch2.loop us now g b)
    = println line (snd (Sketch2.loop_outputs r per tn now g0 b)).
Proof.
  unfold Sketch2.loop. cbv beta iota zeta.
  cbn [Sketch2.last3 Sketch2.idx Sketch2.phaseStartMs Sketch2.phaseOn].
  match goal with
  | |- context [Sketch2.loop_pattern ?d ?r] =>
      destruct (Sketch2.loop_pattern d r) as [per tn] eqn:E
  end.
  match goal with
  | |- context [Sketch2.loop_outputs ?r per tn now ?g0 b] =>
      exists (Sketch2.median3 (aget (Sketch2.last3 g0) 0) (aget (Sketch2.last3 g0) 1)
                (aget (Sketch2.last3 g0) 2)), r, per, tn;
      destruct (Sketch2.loop_outputs r per tn now g0 b) as [g' b'] eqn:Eo;
      eexists _, g0
  end.
  cbn [Sketch2.last3 Sketch2.phaseStartMs Sketch2.phaseOn] in *.
  split; [reflexivity|]. split; [symmetry; exact E|].
  split; [reflexivity|]. split; [reflexivity|].
  rewrite Eo. split; reflexivity.
Qed.

(** The ready light and the alarm never show together.  After any pass of
    [loop()], from any state, a lit ready indicator means the alarm LED is
    dark and the buzzer silent.  Both sketches. *)
Theorem ready_excludes_alarm (us now : Z) :
  (forall cfg g b,
     ledGreen (snd (Sketch1.loop cfg us now g b)) = HIGH ->
     ledRed (snd (Sketch1.loop cfg us now g b)) = LOW /\
     buzzer (snd (Sketch1.loop cfg us now g b)) = None) /\
  (forall g b,
     ledGreen (snd (Sketch2.loop us now g b)) = HIGH ->
     ledRed (snd (Sketch2.loop us now g b)) = LOW /\
     buzzer (snd (Sketch2.loop us now g b)) = None).
Proof.
  split.
  - intros cfg g b.
    destruct (loop1_board cfg us now g b) as (d & r & p & _ & _ & _ & _ & ->).
    unfold Sketch1.logStatus, println. cbn [ledGreen ledRed buzzer].
    destruct (driveOutputs_green r p now (Sketch1.pattern g) b) as [Hg Hr].
    rewrite Hg. destruct r; [discriminate|]. intros _. apply Hr. reflexivity.
  - intros g b.
    destruct (loop2_board us now g b)
      as (d & r & per & tn & line & g0 & _ & _ & _ & _ & _ & ->).
    unfold println. cbn [ledGreen ledRed buzzer].
    destruct (loop_outputs_green r per tn now g0 b) as [Hg Hr].
    rewrite Hg. destruct r; [discriminate|]. intros _. apply Hr. reflexivity.
Qed.

Lemma ready_excludes_alarm_witness :
  ledRed (snd (Sketch2.loop 0 5000
                 (Sketch2.mkGlobals [-1; -1; 800] 2 4000 true)
                 (mkBoard LOW HIGH (Some 560) [] []))) = LOW /\
  buzzer (snd (Sketch2.loop 0 5000
                 (Sketch2.mkGlobals [-1; -1; 800] 2 4000 true)
                 (mkBoard LOW HIGH (Some 560) [] []))) = None.
Proof.
  destruct (ready_excludes_alarm 0 5000) as [_ H].
  apply H. vm_compute. reflexivity.
Defined.

Lemma drive_in_step (r : bool) (p : Sketch1.PatternParams) (now : Z)
  (s : Sketch1.PatternState) (b : Board) :
  in_step (Sketch1.phaseOn s) b ->
  in_step (Sketch1.phaseOn (fst (Sketch1.driveOutputs r p now s b)))
          (snd (Sketch1.driveOutputs r p now s b)).
Proof.
  unfold in_step. intros [Hred Hbuz].
  unfold Sketch1.driveOutputs.
  destruct r; cbn [negb]; [|split; [reflexivity | split; reflexivity]].
  destruct (Sketch1.phaseStartMs s =? 0);
    [split; [reflexivity | split; discriminate]|].
  destruct (Sketch1.phaseOn s) eqn:Eon; split_comparisons;
    cbn [fst snd Sketch1.phaseOn ledRed buzzer digitalWrite tone noTone];
    try (split; [reflexivity | split; (reflexivity || discriminate)]);
    rewrite ?Eon; (split; [exact Hred | exact Hbuz]).
Qed.

Lemma loop_outputs_in_step (r : bool) (periodMs toneHz now : Z)
  (g : Sketch2.Globals) (b : Board) :
  in_step (Sketch2.phaseOn g) b ->
  in_step (Sketch2.phaseOn (fst (Sketch2.loop_outputs r periodMs toneHz now g b)))
          (snd (Sketch2.loop_outputs r periodMs toneHz now g b)).
Proof.
  unfold in_step. intros [Hred Hbuz].
  unfold Sketch2.loop_outputs.
  destruct r; cbn [negb]; [|split; [reflexivity | split; reflexivity]].
  destruct (Sketch2.phaseStartMs g =? 0); cbv beta iota zeta;
    cbn [Sketch2.phaseOn Sketch2.phaseStartMs].
  - split_comparisons;
      cbn [fst snd Sketch2.phaseOn ledRed buzzer digitalWrite tone noTone];
      (split; [reflexivity | split; (reflexivity || discriminate)]).
  - destruct (Sketch2.phaseOn g) eqn:Eon; split_comparisons;
      cbn [fst snd Sketch2.phaseOn ledRed buzzer digitalWrite tone noTone];
      try (split; [reflexivity | split; (reflexivity || discriminate)]);
      rewrite ?Eon; (split; [exact Hred | exact Hbuz]).
Qed.

Lemma loop1_in_step (cfg : Sketch1.Tunables) (us now : Z) (g : Sketch1.Globals)
  (b : Board) :
  in_step (Sketch1.phaseOn (Sketch1.pattern g)) b ->
  in_step (Sketch1.phaseOn (Sketch1.pattern (fst (Sketch1.loop cfg us now g b))))
          (snd (Sketch1.loop cfg us now g b)).
Proof.
  intros H.
  destruct (loop1_board cfg us now g b) as (d & r & p & _ & _ & _ & -> & ->).
  apply (drive_in_step r p now) in H. exact H.
Qed.

Lemma loop2_in_step (us now : Z) (g : Sketch2.Globals) (b : Board) :
  in_step (Sketch2.phaseOn g) b ->
  in_step (Sketch2.phaseOn (fst (Sketch2.loop us now g b)))
          (snd (Sketch2.loop us now g b)).
Proof.
  intros H.
  destruct (loop2_board us now g b)
    as (d & r & per & tn & line & g0 & _ & _ & _ & Hon & -> & ->).
  rewrite <- Hon in H.
  apply (loop_outputs_in_step r per tn now) in H. exact H.
Qed.

Lemma run1_in_step (cfg : Sketch1.Tunables) (inputs : list (Z * Z)) :
  forall g b,
  in_step (Sketch1.phaseOn (Sketch1.pattern g)) b ->
  in_step (Sketch1.phaseOn (Sketch1.pattern (fst (run1 cfg inputs g b))))
          (snd (run1 cfg inputs g b)).
Proof.
  induction inputs as [|[us now] inputs IH]; intros g b H; [exact H|].
  unfold run1. cbn [fold_left].
  pose proof (loop1_in_step cfg us now g b H) as H'.
  destruct (Sketch1.loop cfg us now g b) as [g' b']. apply (IH g' b' H').
Qed.

Lemma run2_in_step (inputs : list (Z * Z)) :
  forall g b,
  in_step (Sketch2.phaseOn g) b ->
  in_step (Sketch2.phaseOn (fst (run2 inputs g b))) (snd (run2 inputs g b)).
Proof.
  induction inputs as [|[us now] inputs IH]; intros g b H; [exact H|].
  unfold run2. cbn [fold_left].
  pose proof (loop2_in_step us now g b H) as H'.
  destruct (Sketch2.loop us now g b) as [g' b']. apply (IH g' b' H').
Qed.

(** The alarm LED and the buzzer always follow the phase flag.  [setup()]
    leaves both off, whatever the pins showed before; from then on, after
    any number of passes on any inputs, the alarm LED is lit exactly when
    the phase flag is on, and the buzzer sounds exactly then.  Both
    sketches, any tunables. *)
Theorem outputs_follow_phase (inputs : list (Z * Z)) (b0 : Board) :
  (forall cfg,
     in_step (Sketch1.phaseOn
                (Sketch1.pattern (fst (run1 cfg inputs Sketch1.globals0 (setup b0)))))
             (snd (run1 cfg inputs Sketch1.globals0 (setup b0)))) /\
  in_step (Sketch2.phaseOn (fst (run2 inputs Sketch2.globals0 (setup b0))))
          (snd (run2 inputs Sketch2.globals0 (setup b0))).
Proof.
  split; [intros cfg; apply run1_in_step | apply run2_in_step];
    (split; [reflexivity | split; reflexivity]).
Qed.

Lemma elapsed_across_rollover (start k : Z) :
  0 <= start < ULONG_MOD -> 0 <= k < ULONG_MOD ->
  wrap_ulong (wrap_ulong (start + k) - start) = k.
Proof.
  unfold wrap_ulong. intros Hs Hk.
  rewrite Zminus_mod_idemp_l.
  replace (start + k - start) with k by lia.
  apply Z.mod_small, Hk.
Qed.

(** Phase timing survives the rollover of the millisecond counter.  With
    phase-start at [start] and the clock [k] milliseconds later, counted
    modulo [2^32], the driver sees exactly [k] elapsed: an ON phase ends
    when [onMs <= k] and an OFF phase when [offMs <= k], also when the
    counter has wrapped in between. *)
Theorem timing_survives_rollover (p : Sketch1.PatternParams) (start k : Z)
  (on : bool) (b : Board) :
  0 < start < ULONG_MOD -> 0 <= k < ULONG_MOD ->
  Sketch1.phaseOn
    (fst (Sketch1.driveOutputs true p (wrap_ulong (start + k))
            (Sketch1.mkPatternState start on) b))
  = (if on then negb (Sketch1.onMs p <=? k) else Sketch1.offMs p <=? k) /\
  (forall l i,
     Sketch2.phaseOn
       (fst (Sketch2.loop_outputs true (Sketch1.periodMs p) (Sketch1.toneHz p)
               (wrap_ulong (start + k)) (Sketch2.mkGlobals l i start on) b))
     = (if on then negb (Sketch2.loop_onMs (Sketch1.periodMs p) <=? k)
        else Sketch2.loop_offMs (Sketch1.periodMs p)
               (Sketch2.loop_onMs (Sketch1.periodMs p)) <=? k)).
Proof.
  intros Hs Hk. split; [|intros l i].
  - rewrite driveOutputs_timed by (cbn; lia).
    cbn [Sketch1.phaseOn Sketch1.phaseStartMs].
    rewrite elapsed_across_rollover by lia.
    destruct on; split_comparisons; reflexivity.
  - rewrite loop_outputs_timed by (cbn; lia).
    cbn [Sketch2.phaseOn Sketch2.phaseStartMs].
    rewrite elapsed_across_rollover by lia.
    destruct on; split_comparisons; reflexivity.
Qed.

Lemma timing_survives_rollover_witness :
  Sketch1.phaseOn
    (fst (Sketch1.driveOutputs true
            (Sketch1.computePatternFromDistance Sketch2.tunables 150 true)
            (wrap_ulong (4294967290 + 40))
            (Sketch1.mkPatternState 4294967290 true) board0))
  = negb (Sketch1.onMs (Sketch1.computePatternFromDistance Sketch2.tunables 150 true)
          <=? 40).
Proof.
  refine (proj1 (timing_survives_rollover
                   (Sketch1.computePatternFromDistance Sketch2.tunables 150 true)
                   4294967290 40 true board0 _ _)); unfold ULONG_MOD; lia.
Defined.

Lemma drive_ticks_cons (p : Sketch1.PatternParams) (now : Z) (nows : list Z)
  (s : Sketch1.PatternState) (b : Board) :
  drive_ticks p (now :: nows) s b
  = drive_ticks p nows (fst (Sketch1.driveOutputs true p now s b))
                       (snd (Sketch1.driveOutputs true p now s b)).
Proof.
  unfold drive_ticks. cbn [fold_left fst snd].
  destruct (Sketch1.driveOutputs true p now s b). reflexivity.
Qed.

(** A phase is left alone until its time is up.  However many in-range
    ticks fall inside an ON phase (elapsed time below the on-duration), the
    phase state stays as it is, the alarm LED and the tone are not touched,
    and the only actuator call of each tick is the write that keeps the
    ready light off: the tone is started once per ON phase, not once per
    tick. *)
Theorem on_phase_is_held (p : Sketch1.PatternParams) (nows : list Z) :
  forall (s : Sketch1.PatternState) (b : Board),
  Sketch1.phaseStartMs s <> 0 -> Sketch1.phaseOn s = true ->
  Forall (fun now => wrap_ulong (now - Sketch1.phaseStartMs s) < Sketch1.onMs p)
         nows ->
  fst (drive_ticks p nows s b) = s /\
  ledRed (snd (drive_ticks p nows s b)) = ledRed b /\
  buzzer (snd (drive_ticks p nows s b)) = buzzer b /\
  issued (snd (drive_ticks p nows s b))
  = issued b ++ repeat (CDigitalWrite PIN_LED_GREEN LOW) (length nows).
Proof.
  induction nows as [|now nows IH]; intros s b Hs Hon Hall.
  - cbn. rewrite app_nil_r. repeat split.
  - apply Forall_cons in Hall as [Hnow Hall].
    rewrite drive_ticks_cons, driveOutputs_timed, Hon by exact Hs.
    rewrite leb_false_of_lt by exact Hnow. cbn [fst snd].
    destruct (IH s (digitalWrite PIN_LED_GREEN LOW b) Hs Hon Hall)
      as (H1 & H2 & H3 & H4).
    rewrite H1, H2, H3, H4. repeat split.
    cbn [issued digitalWrite length repeat]. rewrite <- app_assoc. reflexivity.
Qed.

Lemma on_phase_is_held_witness :
  fst (drive_ticks (Sketch1.computePatternFromDistance Sketch2.tunables 1500 true)
         [1030; 1060; 1090] (Sketch1.mkPatternState 1000 true) board0)
  = Sketch1.mkPatternState 1000 true.
Proof.
  apply (on_phase_is_held
           (Sketch1.computePatternFromDistance Sketch2.tunables 1500 true)
           [1030; 1060; 1090] (Sketch1.mkPatternState 1000 true) board0).
  - cbn. discriminate.
  - reflexivity.
  - repeat constructor.
Defined.

(** Two starts of the ON phase are at least one cycle apart.  If, under one
    cadence and without the counter wrapping, the tick at [t1] ends an ON
    phase begun at [t0] and the tick at [t2] ends the OFF phase that
    followed, then [t2 - t0 >= onMs + offMs]. *)
Theorem cycle_is_not_shortened (p : Sketch1.PatternParams) (t0 t1 t2 : Z)
  (b : Board) :
  0 < t0 -> t0 <= t1 -> t1 <= t2 -> t2 < ULONG_MOD ->
  let r1 := Sketch1.driveOutputs true p t1 (Sketch1.mkPatternState t0 true) b in
  let r2 := Sketch1.driveOutputs true p t2 (fst r1) (snd r1) in
  fst r1 = Sketch1.mkPatternState t1 false ->
  fst r2 = Sketch1.mkPatternState t2 true ->
  Sketch1.onMs p + Sketch1.offMs p <= t2 - t0.
Proof.
  intros H0 H1 H2 H3 r1 r2 E1 E2. subst r2. rewrite E1 in E2. subst r1.
  rewrite driveOutputs_timed in E1 by (cbn; lia).
  rewrite driveOutputs_timed in E2 by (cbn; lia).
  cbn [Sketch1.phaseOn Sketch1.phaseStartMs] in E1, E2.
  rewrite (wrap_ulong_small (t1 - t0)) in E1 by (unfold ULONG_MOD in *; lia).
  rewrite (wrap_ulong_small (t2 - t1)) in E2 by (unfold ULONG_MOD in *; lia).
  destruct (Z.leb_spec (Sketch1.onMs p) (t1 - t0)) as [Ha|Ha];
    [|cbn [fst] in E1; injection E1; lia].
  destruct (Z.leb_spec (Sketch1.offMs p) (t2 - t1)) as [Hb|Hb];
    [lia | cbn [fst] in E2; discriminate E2].
Qed.

Lemma cycle_is_not_shortened_witness :
  Sketch1.onMs (Sketch1.computePatternFromDistance Sketch2.tunables 150 true)
  + Sketch1.offMs (Sketch1.computePatternFromDistance Sketch2.tunables 150 true)
  <= 1120 - 1000.
Proof.
  apply (cycle_is_not_shortened
           (Sketch1.computePatternFromDistance Sketch2.tunables 150 true)
           1000 1040 1120 board0);
    try (unfold ULONG_MOD; lia); vm_compute; reflexivity.
Defined.

(* ===================================================================== *)
(** * The whole pass *)
(* ===================================================================== *)

Lemma drive_keeps_serial (r : bool) (p : Sketch1.PatternParams) (now : Z)
  (s : Sketch1.PatternState) (b : Board) :
  serial (snd (Sketch1.driveOutputs r p now s b)) = serial b.
Proof.
  unfold Sketch1.driveOutputs.
  destruct r; cbn [negb]; [|reflexivity].
  destruct (Sketch1.phaseOn s); split_comparisons; reflexivity.
Qed.

Lemma loop_outputs_keeps (r : bool) (periodMs toneHz now : Z)
  (g : Sketch2.Globals) (b : Board) :
  serial (snd (Sketch2.loop_outputs r periodMs toneHz now g b)) = serial b /\
  Sketch2.last3 (fst (Sketch2.loop_outputs r periodMs toneHz now g b))
  = Sketch2.last3 g /\
  Sketch2.idx (fst (Sketch2.loop_outputs r periodMs toneHz now g b))
  = Sketch2.idx g.
Proof.
  unfold Sketch2.loop_outputs.
  destruct r; cbn [negb]; [|repeat split].
  destruct (Sketch2.phaseStartMs g =? 0); cbv beta iota zeta;
    cbn [Sketch2.phaseOn Sketch2.phaseStartMs];
    try destruct (Sketch2.phaseOn g); split_comparisons; repeat split.
Qed.

Lemma loop1_line (cfg : Sketch1.Tunables) (us now : Z) (g : Sketch1.Globals)
  (b : Board) :
  length (serial (snd (Sketch1.loop cfg us now g b))) = S (length (serial b)).
Proof.
  destruct (loop1_board cfg us now g b) as (d & r & p & _ & _ & _ & _ & ->).
  unfold Sketch1.logStatus, println. cbn [serial].
  rewrite length_app, drive_keeps_serial. cbn [length]. lia.
Qed.

Lemma loop2_line (us now : Z) (g : Sketch2.Globals) (b : Board) :
  length (serial (snd (Sketch2.loop us now g b))) = S (length (serial b)).
Proof.
  destruct (loop2_board us now g b)
    as (d & r & per & tn & line & g0 & _ & _ & _ & _ & _ & ->).
  unfold println. cbn [serial].
  destruct (loop_outputs_keeps r per tn now g0 b) as [-> _].
  rewrite length_app. cbn [length]. lia.
Qed.

(** One status line per pass.  After a run, the serial port has received
    exactly as many lines as [loop()] made passes, whatever the readings
    and whatever the driver did.  Both sketches. *)
Theorem one_status_line_per_pass (inputs : list (Z * Z)) :
  (forall cfg g b,
     length (serial (snd (run1 cfg inputs g b)))
     = (length (serial b) + length inputs)%nat) /\
  (forall g b,
     length (serial (snd (run2 inputs g b)))
     = (length (serial b) + length inputs)%nat).
Proof.
  induction inputs as [|[us now] inputs [IH1 IH2]].
  - split; intros; cbn; lia.
  - split.
    + intros cfg g b. unfold run1. cbn [fold_left].
      pose proof (loop1_line cfg us now g b) as Hl.
      destruct (Sketch1.loop cfg us now g b) as [g' b'].
      cbn [snd] in Hl. fold (run1 cfg inputs g' b').
      rewrite IH1, Hl. cbn [length]. lia.
    + intros g b. unfold run2. cbn [fold_left].
      pose proof (loop2_line us now g b) as Hl.
      destruct (Sketch2.loop us now g b) as [g' b'].
      cbn [snd] in Hl. fold (run2 inputs g' b').
      rewrite IH2, Hl. cbn [length]. lia.
Qed.

Lemma loop_outputs_buzzer (r : bool) (periodMs toneHz now : Z)
  (g : Sketch2.Globals) (b : Board) :
  buzzer (snd (Sketch2.loop_outputs r periodMs toneHz now g b)) = buzzer b \/
  buzzer (snd (Sketch2.loop_outputs r periodMs toneHz now g b)) = None \/
  (r = true /\
   buzzer (snd (Sketch2.loop_outputs r periodMs toneHz now g b)) = Some toneHz).
Proof.
  unfold Sketch2.loop_outputs.
  destruct r; cbn [negb]; [|right; left; reflexivity].
  destruct (Sketch2.phaseStartMs g =? 0); cbv beta iota zeta;
    cbn [Sketch2.phaseOn Sketch2.phaseStartMs];
    try destruct (Sketch2.phaseOn g); split_comparisons;
    cbn [snd buzzer tone noTone digitalWrite]; auto.
Qed.

Lemma loop2_tone (us now : Z) (g : Sketch2.Globals) (b : Board) :
  tone_in_range b -> tone_in_range (snd (Sketch2.loop us now g b)).
Proof.
  intros Hb.
  destruct (loop2_board us now g b)
    as (d & r & per & tn & line & g0 & Hr & Hp & _ & _ & _ & ->).
  unfold tone_in_range, println. cbn [buzzer].
  destruct (loop_outputs_buzzer r per tn now g0 b) as [E | [E | [Er E]]];
    rewrite E; intros hz Hhz.
  - apply Hb, Hhz.
  - discriminate Hhz.
  - injection Hhz as <-.
    rewrite Er in Hr. apply andb_true_eq in Hr as [E1 E2].
    symmetry in E1, E2. apply Z.leb_le in E1. apply Z.leb_le in E2.
    rewrite Er, loop_pattern_eq in Hp. injection Hp as _ ->.
    destruct (cadence_row d (conj E1 E2)) as (_ & Ht & _). exact Ht.
Qed.

Lemma run2_tone (inputs : list (Z * Z)) :
  forall g b, tone_in_range b -> tone_in_range (snd (run2 inputs g b)).
Proof.
  induction inputs as [|[us now] inputs IH]; intros g b H; [exact H|].
  unfold run2. cbn [fold_left].
  pose proof (loop2_tone us now g b H) as H'.
  destruct (Sketch2.loop us now g b) as [g' b']. apply (IH g' b' H').
Qed.

(** The buzzer is never driven outside the tone range.  From power-up, on
    any inputs, whenever the buzzer sounds its frequency lies within
    [TONE_MIN_HZ, TONE_MAX_HZ] = [400, 1600] Hz.  Second sketch, and first
    sketch at the same tunables. *)
Theorem buzzer_stays_in_tone_range (inputs : list (Z * Z)) :
  tone_in_range (snd (run2 inputs Sketch2.globals0 board0)) /\
  tone_in_range (snd (run1 Sketch2.tunables inputs Sketch1.globals0 board0)).
Proof.
  assert (H : tone_in_range (snd (run2 inputs Sketch2.globals0 board0))).
  { apply run2_tone. intros hz E. discriminate E. }
  split; [exact H|].
  destruct (run_agree inputs Sketch1.globals0 Sketch2.globals0 board0) as [_ ->];
    [repeat split | cbn; lia | exact H].
Qed.

Lemma loop1_view (cfg : Sketch1.Tunables) (us now : Z) (g : Sketch1.Globals)
  (b : Board) (a1 a2 a3 : Z) :
  Sketch1.distanceBuf (fst (Sketch1.loop cfg us now g b)) = [a1; a2; a3] ->
  let r := in_zone (Sketch1.FAR_DISTANCE_MM cfg)
                   (Sketch1.medianOf3_allowInvalid a1 a2 a3) in
  ledGreen (snd (Sketch1.loop cfg us now g b)) = negb r /\
  (r = false ->
   ledRed (snd (Sketch1.loop cfg us now g b)) = LOW /\
   buzzer (snd (Sketch1.loop cfg us now g b)) = None /\
   Sketch1.pattern (fst (Sketch1.loop cfg us now g b))
   = Sketch1.mkPatternState 0 false).
Proof.
  destruct (loop_buffer cfg us now g b) as [-> _].
  destruct (loop1_board cfg us now g b) as (d & r & p & Hr & Hd & _ & -> & ->).
  unfold Sketch1.readAndSmoothDistanceMm in *. cbn [fst snd Sketch1.distanceBuf] in *.
  intros Hbuf. rewrite Hbuf in Hd.
  change (aget [a1; a2; a3] 0) with a1 in Hd.
  change (aget [a1; a2; a3] 1) with a2 in Hd.
  change (aget [a1; a2; a3] 2) with a3 in Hd.
  unfold in_zone. rewrite <- Hd, <- Hr.
  unfold Sketch1.logStatus, println. cbn [ledGreen ledRed buzzer].
  destruct (driveOutputs_green r p now (Sketch1.pattern g) b) as [Hg Hoff].
  split; [exact Hg|]. intros ->.
  destruct (Hoff eq_refl) as [H1 H2]. repeat split; assumption.
Qed.

Lemma loop2_view (us now : Z) (g : Sketch2.Globals) (b : Board) (a1 a2 a3 : Z) :
  Sketch2.last3 (fst (Sketch2.loop us now g b)) = [a1; a2; a3] ->
  let r := in_zone Sketch2.FAR_MM (Sketch1.medianOf3_allowInvalid a1 a2 a3) in
  ledGreen (snd (Sketch2.loop us now g b)) = negb r /\
  (r = false ->
   ledRed (snd (Sketch2.loop us now g b)) = LOW /\
   buzzer (snd (Sketch2.loop us now g b)) = None /\
   Sketch2.phaseStartMs (fst (Sketch2.loop us now g b)) = 0 /\
   Sketch2.phaseOn (fst (Sketch2.loop us now g b)) = false).
Proof.
  unfold Sketch2.loop. cbv beta iota zeta.
  cbn [Sketch2.last3 Sketch2.idx Sketch2.phaseStartMs Sketch2.phaseOn].
  set (buf := aset (Sketch2.last3 g) (Sketch2.idx g) (Sketch2.readDistanceMm us)).
  rewrite median3_eq.
  set (d := Sketch1.medianOf3_allowInvalid (aget buf 0) (aget buf 1) (aget buf 2)).
  fold (in_zone Sketch2.FAR_MM d).
  destruct (Sketch2.loop_pattern d (in_zone Sketch2.FAR_MM d)) as [per tn].
  match goal with
  | |- context [Sketch2.loop_outputs ?r per tn now ?g0 b] =>
      pose proof (loop_outputs_green r per tn now g0 b) as [Hg Hoff];
      pose proof (loop_outputs_keeps r per tn now g0 b) as (_ & Hl & _);
      assert (Hreset : r = false ->
                Sketch2.phaseStartMs (fst (Sketch2.loop_outputs r per tn now g0 b)) = 0
                /\ Sketch2.phaseOn (fst (Sketch2.loop_outputs r per tn now g0 b)) = false)
        by (intros ->; split; reflexivity);
      destruct (Sketch2.loop_outputs r per tn now g0 b) as [g' b']
  end.
  cbn [fst snd Sketch2.last3 ledGreen ledRed buzzer println] in *.
  intros Hbuf. rewrite Hl in Hbuf. subst d. rewrite Hbuf in *.
  change (aget [a1; a2; a3] 0) with a1 in *.
  change (aget [a1; a2; a3] 1) with a2 in *.
  change (aget [a1; a2; a3] 2) with a3 in *.
  split; [exact Hg|]. intros E.
  destruct (Hoff E) as [H1 H2]. destruct (Hreset E) as [H3 H4].
  repeat split; assumption.
Qed.

Lemma in_zone_true (far d : Z) : 0 <= d <= far -> in_zone far d = true.
Proof.
  intros H. unfold in_zone. apply andb_true_intro.
  split; apply Z.leb_le; lia.
Qed.

Lemma in_zone_false (far d : Z) : d < 0 \/ far < d -> in_zone far d = false.
Proof.
  intros H. unfold in_zone. apply andb_false_iff.
  destruct H; [left | right]; apply Z.leb_gt; lia.
Qed.

Lemma all_invalid (a b c : Z) :
  a < 0 -> b < 0 -> c < 0 -> Sketch1.medianOf3_allowInvalid a b c = -1.
Proof.
  intros Ha Hb Hc. rewrite medianOf3_cases.
  replace (0 <=? a) with false by (symmetry; apply Z.leb_gt; lia).
  replace (0 <=? b) with false by (symmetry; apply Z.leb_gt; lia).
  replace (0 <=? c) with false by (symmetry; apply Z.leb_gt; lia).
  reflexivity.
Qed.



(** The alarm clears when the window has nothing in the zone.  If, after a
    pass, no buffer entry is valid, or every valid entry lies beyond FAR,
    the pass is out of range: ready light on, alarm LED off, buzzer silent
    and the phase state back at "no cycle started".  Three missed echoes in
    a row always end an alarm.  Both sketches. *)
Theorem alarm_clears_when_zone_is_empty (us now a1 a2 a3 : Z) :
  (forall cfg g b,
     Sketch1.distanceBuf (fst (Sketch1.loop cfg us now g b)) = [a1; a2; a3] ->
     no_overflow a1 -> no_overflow a2 -> no_overflow a3 ->
     (0 <= a1 -> Sketch1.FAR_DISTANCE_MM cfg < a1) ->
     (0 <= a2 -> Sketch1.FAR_DISTANCE_MM cfg < a2) ->
     (0 <= a3 -> Sketch1.FAR_DISTANCE_MM cfg < a3) ->
     ledGreen (snd (Sketch1.loop cfg us now g b)) = HIGH /\
     ledRed (snd (Sketch1.loop cfg us now g b)) = LOW /\
     buzzer (snd (Sketch1.loop cfg us now g b)) = None /\
     Sketch1.pattern (fst (Sketch1.loop cfg us now g b))
     = Sketch1.mkPatternState 0 false) /\
  (forall g b,
     Sketch2.last3 (fst (Sketch2.loop us now g b)) = [a1; a2; a3] ->
     no_overflow a1 -> no_overflow a2 -> no_overflow a3 ->
     (0 <= a1 -> Sketch2.FAR_MM < a1) ->
     (0 <= a2 -> Sketch2.FAR_MM < a2) ->
     (0 <= a3 -> Sketch2.FAR_MM < a3) ->
     ledGreen (snd (Sketch2.loop us now g b)) = HIGH /\
     ledRed (snd (Sketch2.loop us now g b)) = LOW /\
     buzzer (snd (Sketch2.loop us now g b)) = None /\
     Sketch2.phaseStartMs (fst (Sketch2.loop us now g b)) = 0 /\
     Sketch2.phaseOn (fst (Sketch2.loop us now g b)) = false).
Proof.
  assert (Hout : forall far,
             no_overflow a1 -> no_overflow a2 -> no_overflow a3 ->
             (0 <= a1 -> far < a1) -> (0 <= a2 -> far < a2) ->
             (0 <= a3 -> far < a3) ->
             in_zone far (Sketch1.medianOf3_allowInvalid a1 a2 a3) = false).
  { intros far N1 N2 N3 H1 H2 H3. apply in_zone_false.
    destruct (Z_lt_ge_dec a1 0) as [V1|V1];
      [destruct (Z_lt_ge_dec a2 0) as [V2|V2];
       [destruct (Z_lt_ge_dec a3 0) as [V3|V3]|]|].
    - left. rewrite all_invalid by assumption. lia.
    - right.
      assert (far + 1 <= Sketch1.medianOf3_allowInvalid a1 a2 a3 <= 16383); [|lia].
      unfold no_overflow, INT_MIN, INT_MAX in N1, N2, N3.
      change (32767 / 2) with 16383 in *.
      apply medianOf3_between; unfold no_overflow, INT_MIN, INT_MAX;
        change (32767 / 2) with 16383; lia.
    - right.
      assert (far + 1 <= Sketch1.medianOf3_allowInvalid a1 a2 a3 <= 16383); [|lia].
      unfold no_overflow, INT_MIN, INT_MAX in N1, N2, N3.
      change (32767 / 2) with 16383 in *.
      apply medianOf3_between; unfold no_overflow, INT_MIN, INT_MAX;
        change (32767 / 2) with 16383; lia.
    - right.
      assert (far + 1 <= Sketch1.medianOf3_allowInvalid a1 a2 a3 <= 16383); [|lia].
      unfold no_overflow, INT_MIN, INT_MAX in N1, N2, N3.
      change (32767 / 2) with 16383 in *.
      apply medianOf3_between; unfold no_overflow, INT_MIN, INT_MAX;
        change (32767 / 2) with 16383; lia. }
  split.
  - intros cfg g b Hbuf N1 N2 N3 H1 H2 H3.
    destruct (loop1_view cfg us now g b a1 a2 a3 Hbuf) as [-> Hoff].
    rewrite Hout in * by assumption. split; [reflexivity|]. apply Hoff. reflexivity.
  - intros g b Hbuf N1 N2 N3 H1 H2 H3.
    destruct (loop2_view us now g b a1 a2 a3 Hbuf) as [-> Hoff].
    rewrite Hout in * by assumption. split; [reflexivity|]. apply Hoff. reflexivity.
Qed.

Lemma alarm_clears_when_zone_is_empty_witness :
  ledGreen (snd (Sketch2.loop 0 5000
                   (Sketch2.mkGlobals [-1; -1; 820] 2 4000 true) board0)) = HIGH /\
  ledRed (snd (Sketch2.loop 0 5000
                 (Sketch2.mkGlobals [-1; -1; 820] 2 4000 true) board0)) = LOW /\
  buzzer (snd (Sketch2.loop 0 5000
                 (Sketch2.mkGlobals [-1; -1; 820] 2 4000 true) board0)) = None /\
  Sketch2.phaseStartMs (fst (Sketch2.loop 0 5000
                 (Sketch2.mkGlobals [-1; -1; 820] 2 4000 true) board0)) = 0 /\
  Sketch2.phaseOn (fst (Sketch2.loop 0 5000
                 (Sketch2.mkGlobals [-1; -1; 820] 2 4000 true) board0)) = false.
Proof.
  destruct (alarm_clears_when_zone_is_empty 0 5000 (-1) (-1) (-1)) as [_ H].
  apply H; try reflexivity;
    unfold no_overflow, Sketch2.FAR_MM; vm_compute; intuition discriminate.
Defined.

(** With three valid readings in the window the zone decision is the
    majority's.  Two readings within FAR put the pass in range whatever the
    third says (one far or spurious reading does not silence the alarm);
    two readings beyond FAR put it out of range whatever the third says
    (one spurious near echo does not raise it).  Both sketches. *)
Theorem zone_decision_is_majority (us now a1 a2 a3 : Z) :
  0 <= a1 -> 0 <= a2 -> 0 <= a3 ->
  (forall cfg g b,
     Sketch1.distanceBuf (fst (Sketch1.loop cfg us now g b)) = [a1; a2; a3] ->
     let far := Sketch1.FAR_DISTANCE_MM cfg in
     ((a1 <= far /\ a2 <= far) \/ (a1 <= far /\ a3 <= far)
      \/ (a2 <= far /\ a3 <= far) ->
      ledGreen (snd (Sketch1.loop cfg us now g b)) = LOW) /\
     ((far < a1 /\ far < a2) \/ (far < a1 /\ far < a3)
      \/ (far < a2 /\ far < a3) ->
      ledGreen (snd (Sketch1.loop cfg us now g b)) = HIGH /\
      ledRed (snd (Sketch1.loop cfg us now g b)) = LOW /\
      buzzer (snd (Sketch1.loop cfg us now g b)) = None)) /\
  (forall g b,
     Sketch2.last3 (fst (Sketch2.loop us now g b)) = [a1; a2; a3] ->
     let far := Sketch2.FAR_MM in
     ((a1 <= far /\ a2 <= far) \/ (a1 <= far /\ a3 <= far)
      \/ (a2 <= far /\ a3 <= far) ->
      ledGreen (snd (Sketch2.loop us now g b)) = LOW) /\
     ((far < a1 /\ far < a2) \/ (far < a1 /\ far < a3)
      \/ (far < a2 /\ far < a3) ->
      ledGreen (snd (Sketch2.loop us now g b)) = HIGH /\
      ledRed (snd (Sketch2.loop us now g b)) = LOW /\
      buzzer (snd (Sketch2.loop us now g b)) = None)).
Proof.
  intros V1 V2 V3.
  pose proof (median_between_two a1 a2 a3 V1 V2 V3) as B12.
  pose proof (median_between_two a1 a3 a2 V1 V3 V2) as B13.
  pose proof (median_between_two a2 a3 a1 V2 V3 V1) as B23.
  rewrite <- (medianOf3_swap23 a1 a2 a3) in B13.
  rewrite <- (medianOf3_swap23 a2 a1 a3), <- (medianOf3_swap12 a1 a2 a3) in B23.
  set (m := Sketch1.medianOf3_allowInvalid a1 a2 a3) in *.
  assert (Hin : forall far,
             (a1 <= far /\ a2 <= far) \/ (a1 <= far /\ a3 <= far)
             \/ (a2 <= far /\ a3 <= far) -> in_zone far m = true).
  { intros far H. apply in_zone_true. lia. }
  assert (Hout : forall far,
             (far < a1 /\ far < a2) \/ (far < a1 /\ far < a3)
             \/ (far < a2 /\ far < a3) -> in_zone far m = false).
  { intros far H. apply in_zone_false. lia. }
  split.
  - intros cfg g b Hbuf far.
    destruct (loop1_view cfg us now g b a1 a2 a3 Hbuf) as [Hg Hoff].
    fold m in Hg, Hoff. fold far in Hg, Hoff. split; intros H.
    + rewrite Hg, (Hin far H). reflexivity.
    + rewrite Hg, (Hout far H). split; [reflexivity|].
      destruct (Hoff (Hout far H)) as (H1 & H2 & _). split; assumption.
  - intros g b Hbuf far.
    destruct (loop2_view us now g b a1 a2 a3 Hbuf) as [Hg Hoff].
    fold m in Hg, Hoff. fold far in Hg, Hoff. split; intros H.
    + rewrite Hg, (Hin far H). reflexivity.
    + rewrite Hg, (Hout far H). split; [reflexivity|].
      destruct (Hoff (Hout far H)) as (H1 & H2 & _). split; assumption.
Qed.

Lemma zone_decision_is_majority_witness :
  ledGreen (snd (Sketch2.loop 204 5000
                   (Sketch2.mkGlobals [2000; 2010; 1990] 2 0 false) board0)) = HIGH.
Proof.
  destruct (zone_decision_is_majority 204 5000 2000 2010 35) as [_ H];
    [lia | lia | lia |].
  destruct (H (Sketch2.mkGlobals [2000; 2010; 1990] 2 0 false) board0) as [_ H2];
    [vm_compute; reflexivity|].
  apply H2. unfold Sketch2.FAR_MM. lia.
Defined.

(* ===================================================================== *)
(** * The circular buffer over whole runs *)
(* ===================================================================== *)

Lemma next_idx_mod (i : Z) :
  0 <= i < 3 -> wrap_u8 (Z.rem (i + 1) 3) = (i + 1) mod 3.
Proof.
  intros H. assert (Hi : i = 0 \/ i = 1 \/ i = 2) by lia.
  destruct Hi as [-> | [-> | ->]]; reflexivity.
Qed.

Lemma loop1_slots (cfg : Sketch1.Tunables) (us now : Z) (g : Sketch1.Globals)
  (b : Board) :
  0 <= Sketch1.distanceIdx g < 3 ->
  Sketch1.distanceIdx (fst (Sketch1.loop cfg us now g b))
  = (Sketch1.distanceIdx g + 1) mod 3 /\
  length (Sketch1.distanceBuf (fst (Sketch1.loop cfg us now g b)))
  = length (Sketch1.distanceBuf g).
Proof.
  intros Hi. destruct (loop_buffer cfg us now g b) as [-> ->].
  unfold Sketch1.readAndSmoothDistanceMm.
  cbn [snd Sketch1.distanceBuf Sketch1.distanceIdx].
  split; [apply next_idx_mod, Hi | apply length_insert].
Qed.

Lemma loop2_slots (us now : Z) (g : Sketch2.Globals) (b : Board) :
  0 <= Sketch2.idx g < 3 ->
  Sketch2.idx (fst (Sketch2.loop us now g b)) = (Sketch2.idx g + 1) mod 3 /\
  length (Sketch2.last3 (fst (Sketch2.loop us now g b)))
  = length (Sketch2.last3 g).
Proof.
  intros Hi. unfold Sketch2.loop. cbv beta iota zeta.
  cbn [Sketch2.last3 Sketch2.idx Sketch2.phaseStartMs Sketch2.phaseOn].
  match goal with
  | |- context [Sketch2.loop_pattern ?d ?r] =>
      destruct (Sketch2.loop_pattern d r) as [per tn]
  end.
  match goal with
  | |- context [Sketch2.loop_outputs ?r per tn now ?g0 b] =>
      pose proof (loop_outputs_keeps r per tn now g0 b) as (_ & Hl & Hx);
      destruct (Sketch2.loop_outputs r per tn now g0 b) as [g' b']
  end.
  cbn [fst Sketch2.last3 Sketch2.idx] in *. rewrite Hl, Hx.
  destruct (next_idx_eq _ Hi) as [-> _].
  split; [apply next_idx_mod, Hi | apply length_insert].
Qed.

Lemma run1_slots (cfg : Sketch1.Tunables) (inputs : list (Z * Z)) :
  forall g b,
  0 <= Sketch1.distanceIdx g < 3 ->
  Sketch1.distanceIdx (fst (run1 cfg inputs g b))
  = (Sketch1.distanceIdx g + Z.of_nat (length inputs)) mod 3 /\
  length (Sketch1.distanceBuf (fst (run1 cfg inputs g b)))
  = length (Sketch1.distanceBuf g).
Proof.
  induction inputs as [|[us now] inputs IH]; intros g b Hi.
  - cbn [run1 fold_left fst length]. rewrite Z.add_0_r, Z.mod_small by lia.
    split; reflexivity.
  - unfold run1. cbn [fold_left].
    destruct (loop1_slots cfg us now g b Hi) as [Hx Hl].
    destruct (Sketch1.loop cfg us now g b) as [g' b']. cbn [fst] in Hx, Hl.
    fold (run1 cfg inputs g' b').
    destruct (IH g' b') as [Hx' Hl'].
    { rewrite Hx. apply Z.mod_pos_bound. lia. }
    rewrite Hx', Hl', Hx, Hl. split; [|reflexivity].
    rewrite Zplus_mod_idemp_l. f_equal. cbn [length]. lia.
Qed.

Lemma run2_slots (inputs : list (Z * Z)) :
  forall g b,
  0 <= Sketch2.idx g < 3 ->
  Sketch2.idx (fst (run2 inputs g b))
  = (Sketch2.idx g + Z.of_nat (length inputs)) mod 3 /\
  length (Sketch2.last3 (fst (run2 inputs g b))) = length (Sketch2.last3 g).
Proof.
  induction inputs as [|[us now] inputs IH]; intros g b Hi.
  - cbn [run2 fold_left fst length]. rewrite Z.add_0_r, Z.mod_small by lia.
    split; reflexivity.
  - unfold run2. cbn [fold_left].
    destruct (loop2_slots us now g b Hi) as [Hx Hl].
    destruct (Sketch2.loop us now g b) as [g' b']. cbn [fst] in Hx, Hl.
    fold (run2 inputs g' b').
    destruct (IH g' b') as [Hx' Hl'].
    { rewrite Hx. apply Z.mod_pos_bound. lia. }
    rewrite Hx', Hl', Hx, Hl. split; [|reflexivity].
    rewrite Zplus_mod_idemp_l. f_equal. cbn [length]. lia.
Qed.

(** The buffer is circular.  From power-up, after [n] passes on any inputs,
    the buffer still has its three slots and the write index is [n mod 3]:
    it never leaves the array.  Both sketches, any tunables. *)
Theorem write_index_cycles (inputs : list (Z * Z)) (b : Board) :
  (forall cfg,
     Sketch1.distanceIdx (fst (run1 cfg inputs Sketch1.globals0 b))
     = Z.of_nat (length inputs) mod 3 /\
     length (Sketch1.distanceBuf (fst (run1 cfg inputs Sketch1.globals0 b)))
     = 3%nat) /\
  (Sketch2.idx (fst (run2 inputs Sketch2.globals0 b))
   = Z.of_nat (length inputs) mod 3 /\
   length (Sketch2.last3 (fst (run2 inputs Sketch2.globals0 b))) = 3%nat).
Proof.
  split; [intros cfg; apply (run1_slots cfg inputs Sketch1.globals0 b)
         |apply (run2_slots inputs Sketch2.globals0 b)]; cbn; lia.
Qed.

(** The buffer only ever holds samples.  From power-up, on any run whose
    echoes [pulseIn] can report, every slot of the buffer is the invalid
    marker or a distance in [0, 6000] mm, and the write index is 0, 1 or 2.
    Both sketches. *)
Theorem buffer_holds_samples (inputs : list (Z * Z)) (b : Board) :
  echoes_ok inputs ->
  (forall cfg,
     buffer_ok (Sketch1.distanceBuf (fst (run1 cfg inputs Sketch1.globals0 b)))
               (Sketch1.distanceIdx (fst (run1 cfg inputs Sketch1.globals0 b)))) /\
  buffer_ok (Sketch2.last3 (fst (run2 inputs Sketch2.globals0 b)))
            (Sketch2.idx (fst (run2 inputs Sketch2.globals0 b))).
Proof.
  intros He.
  assert (H1 : forall cfg,
             buffer_ok (Sketch1.distanceBuf (fst (run1 cfg inputs Sketch1.globals0 b)))
                       (Sketch1.distanceIdx (fst (run1 cfg inputs Sketch1.globals0 b)))).
  { intros cfg. apply run_buffer; [exact He | apply power_up_buffer]. }
  split.
  - exact H1.
  - destruct (run_agree inputs Sketch1.globals0 Sketch2.globals0 b)
      as [(Hbuf & Hidx & _) _]; [repeat split | cbn; lia |].
    rewrite <- Hbuf, <- Hidx. apply H1.
Qed.

Lemma buffer_holds_samples_witness :
  buffer_ok (Sketch2.last3 (fst (run2 [(4665, 100); (0, 140)]
                                      Sketch2.globals0 board0)))
            (Sketch2.idx (fst (run2 [(4665, 100); (0, 140)]
                                    Sketch2.globals0 board0))).
Proof.
  apply (buffer_holds_samples [(4665, 100); (0, 140)] board0).
  repeat constructor; cbn; unfold Sketch1.TIMEOUT_US; lia.
Defined.
